(** * smithy-rs CI utilities: benchmark formatter and codegen-diff library

    A shallow embedding of

    - [tools/compiletime-benchmark/format.py] (module [Format]) and
    - [tools/ci-scripts/codegen-diff/diff_lib.py] (module [DiffLib]),

    together with the part of Python's [str] API the two scripts rely on
    (module [PyStr]).  Definitions come first, the properties follow. *)

From Stdlib Require Import String Ascii List NArith ZArith Bool Lia.
Import ListNotations.

(* ================================================================== *)
(** ** Python strings *)
(* ================================================================== *)

Module PyStr.

(** A Python [str] is a sequence of Unicode code points.  String literals of
    the sources are written [lit "..."]; Rocq literals have no escape
    sequences, so a backslash inside [lit] is a genuine backslash and
    control characters are spelled out by code point. *)
Definition char := N.
Definition str := list char.

Definition lit (s : string) : str := map N_of_ascii (list_ascii_of_string s).

Definition LF : char := 10%N.
Definition CR : char := 13%N.
Definition DQUOTE : char := 34%N.
Definition BACKSLASH : char := 92%N.

(** [a == b] on strings. *)
Fixpoint str_eqb (a b : str) : bool :=
  match a, b with
  | [], [] => true
  | x :: a', y :: b' => N.eqb x y && str_eqb a' b'
  | _, _ => false
  end.

(** [x in xs] for a list of strings. *)
Definition mem (x : str) (xs : list str) : bool := existsb (str_eqb x) xs.

(** [s.startswith(p)]. *)
Fixpoint startswith (s p : str) {struct p} : bool :=
  match p, s with
  | [], _ => true
  | _ :: _, [] => false
  | a :: p', b :: s' => N.eqb a b && startswith s' p'
  end.

(** [sub in s]: [sub] occurs in [s] as a contiguous substring. *)
Fixpoint contains (sub s : str) : bool :=
  startswith s sub ||
  match s with
  | [] => false
  | _ :: s' => contains sub s'
  end.

(** [sep.join(items)]. *)
Fixpoint join (sep : str) (items : list str) : str :=
  match items with
  | [] => []
  | [x] => x
  | x :: rest => x ++ sep ++ join sep rest
  end.

(** [cons_head c pieces] puts [c] in front of the first piece. *)
Definition cons_head (c : char) (pieces : list str) : list str :=
  match pieces with
  | [] => [[c]]
  | p :: ps => (c :: p) :: ps
  end.

(** [s.split(sep)] for a non-empty [sep] (Python raises [ValueError] on an
    empty separator; every call in the sources passes a non-empty literal).
    The text is scanned from the left; at an occurrence of [sep] the current
    piece is closed and the scan resumes after the occurrence.  [skip]
    counts the characters of the occurrence still to be passed over. *)
Fixpoint split_from (skip : nat) (s sep : str) : list str :=
  match s with
  | [] => [[]]
  | c :: s' =>
      match skip with
      | S k => split_from k s' sep
      | O =>
          if startswith s sep
          then [] :: split_from (length sep - 1) s' sep
          else cons_head c (split_from 0 s' sep)
      end
  end.

Definition split (s sep : str) : list str := split_from 0 s sep.

(** [s.replace(old, new)] for a non-empty [old]: every occurrence found by
    the same left-to-right scan is replaced. *)
Fixpoint replace_from (skip : nat) (s old new : str) : str :=
  match s with
  | [] => []
  | c :: s' =>
      match skip with
      | S k => replace_from k s' old new
      | O =>
          if startswith s old
          then new ++ replace_from (length old - 1) s' old new
          else c :: replace_from 0 s' old new
      end
  end.

Definition replace (s old new : str) : str := replace_from 0 s old new.

(** The line boundaries of [str.splitlines]: LF, CR, VT, FF, FS, GS, RS,
    NEL, LINE SEPARATOR and PARAGRAPH SEPARATOR; CR LF counts as one. *)
Definition linebreaks : list char :=
  [10; 13; 11; 12; 28; 29; 30; 133; 8232; 8233]%N.

Definition is_linebreak (c : char) : bool := existsb (N.eqb c) linebreaks.

(** [s.splitlines()]: the lines of [s] without their terminators; a final
    terminator does not open an empty last line. *)
Fixpoint splitlines (s : str) : list str :=
  match s with
  | [] => []
  | c :: s' =>
      if is_linebreak c then
        [] :: (if N.eqb c CR then
                 match s' with
                 | d :: s'' => if N.eqb d LF then splitlines s'' else splitlines s'
                 | [] => splitlines s'
                 end
               else splitlines s')
      else cons_head c (splitlines s')
  end.

End PyStr.

(* ================================================================== *)
(** ** tools/compiletime-benchmark/format.py *)
(* ================================================================== *)

Module Format.
Import PyStr.

Inductive exn : Type :=
| IndexError.

(** [read_file]: the contents [f] of [/tmp/compiletime-benchmark.txt] are
    split on [START], each block is split on [END], and the pieces are
    chained. *)
Definition read_file (f : str) : list str :=
  concat (map (fun x => split x (lit "END")) (split f (lit "START"))).

(** The triple-quoted literal [markdown] starts from: a newline, the
    indented header line, the indented separator row and the indentation of
    the closing quotes. *)
Definition markdown_init : str :=
  [LF] ++
  lit "    | sdk name | dev | release | dev all features | release all features |" ++ [LF] ++
  lit "    | -------- | --- | ------- | ---------------- | -------------------- |" ++ [LF] ++
  lit "    ".

(** The inner loop: the lines of chunk [i] that contain no [+], with
    [" seconds"] removed. *)
Definition outputs_of (i : str) : list str :=
  map (fun l => replace l (lit " seconds") [])
      (filter (fun l => negb (contains (lit "+") l)) (splitlines i)).

(** One iteration of the outer loop.  The state is what has been printed so
    far and the value of [markdown]. *)
Definition parser_step (printed : list str) (markdown : str) (i : str)
  : exn + (list str * str) :=
  let printed := printed ++ [i] in
  let outputs := outputs_of i in
  if negb (Nat.eqb (length outputs) 6) then inr (printed, markdown)
  else
    let outputs := skipn 1 outputs in
    match nth_error outputs 0 with
    | None => inl IndexError
    | Some sdk_name =>
        let row := lit "|" ++ sdk_name ++ lit "|" ++
                   join (lit "|") (skipn 1 outputs) ++ lit "|" in
        inr (printed, markdown ++ row)
    end.

Fixpoint parser_loop (printed : list str) (markdown : str) (iter : list str)
  : exn + (list str * str) :=
  match iter with
  | [] => inr (printed, markdown)
  | i :: rest =>
      match parser_step printed markdown i with
      | inl e => inl e
      | inr (printed', markdown') => parser_loop printed' markdown' rest
      end
  end.

(** [parser]: the chunks printed on standard output and the returned
    markdown, or the exception raised. *)
Definition parser (iter : list str) : exn + (list str * str) :=
  parser_loop [] markdown_init iter.

End Format.

(* ================================================================== *)
(** ** tools/ci-scripts/codegen-diff/diff_lib.py *)
(* ================================================================== *)

Module DiffLib.
Import PyStr.

Definition HEAD_BRANCH_NAME : str := lit "__tmp-localonly-head".
Definition BASE_BRANCH_NAME : str := lit "__tmp-localonly-base".
Definition OUTPUT_PATH : str := lit "tmp-codegen-diff".

Definition COMMIT_AUTHOR_NAME : str := lit "GitHub Action (generated code preview)".
Definition COMMIT_AUTHOR_EMAIL : str := lit "generated-code-action@github.com".

Definition CDN_URL : str := lit "https://d2luzm2xt3nokh.cloudfront.net".

(** How an f-string renders a value that is [None] or a [str]. *)
Definition fmt (v : option str) : str :=
  match v with
  | None => lit "None"
  | Some s => s
  end.

(** The exceptions of the library: [subprocess.CalledProcessError], raised
    by [run] for a non-zero exit status (with the command line it was
    given), and what tokenising a command line or starting a process may
    raise. *)
Inductive exn : Type :=
| CalledProcessError (returncode : Z) (cmd : str)
| ValueError
| OSError.

(** What the library does to the outside: it starts processes and writes
    lines on standard error. *)
Inductive event : Type :=
| Exec (command : str) (shell : bool) (returncode : Z)
| Eprint (line : str).

(** [diff_link(diff_text, empty_diff_text, diff_location, alternate_text,
    alternate_location)]; the two locations are results of [make_diff]. *)
Definition diff_link (diff_text empty_diff_text : str) (diff_location : option str)
  (alternate_text : str) (alternate_location : option str) : str :=
  match diff_location with
  | None => empty_diff_text
  | Some _ =>
      lit "[" ++ diff_text ++ lit "](" ++ CDN_URL ++ lit "/codegen-diff/" ++
      fmt diff_location ++ lit ") ([" ++ alternate_text ++ lit "](" ++
      CDN_URL ++ lit "/codegen-diff/" ++ fmt alternate_location ++ lit "))"
  end.

(** The message [make_diffs] returns, as a function of the eight results of
    [make_diff].  In the Python source the literals end in an escaped
    newline, a backslash followed by [n]; it is written the same way here. *)
Definition make_diffs_message
  (sdk_ws sdk_nows client_ws client_nows server_ws server_nows
   server_ws_python server_nows_python : option str) : str :=
  let sdk_links :=
    diff_link (lit "AWS SDK") (lit "No codegen difference in the AWS SDK")
              sdk_ws (lit "ignoring whitespace") sdk_nows in
  let client_links :=
    diff_link (lit "Client Test") (lit "No codegen difference in the Client Test")
              client_ws (lit "ignoring whitespace") client_nows in
  let server_links :=
    diff_link (lit "Server Test") (lit "No codegen difference in the Server Test")
              server_ws (lit "ignoring whitespace") server_nows in
  let server_links_python :=
    diff_link (lit "Server Test Python")
              (lit "No codegen difference in the Server Test Python")
              server_ws_python (lit "ignoring whitespace") server_nows_python in
  (* Save escaped newlines so that the GitHub Action script gets the whole message *)
  lit "A new generated diff is ready to view.\n" ++
  lit "- " ++ sdk_links ++ lit "\n" ++
  lit "- " ++ client_links ++ lit "\n" ++
  lit "- " ++ server_links ++ lit "\n" ++
  lit "- " ++ server_links_python ++ lit "\n".

Section Shell.

(** The checkout, the file system and whatever else the external programs
    read and change are an abstract [World].  [subprocess_run command shell]
    runs one command to completion and yields its exit status.  Without
    [shell] the command line is first tokenised by [shlex.split], which
    raises [ValueError] for unbalanced quotes, and starting a program that
    cannot be run raises [OSError]. *)
Variable World : Type.
Variable subprocess_run : str -> bool -> World -> World * (exn + Z).

Record state : Type := mkState { world : World; log : list event }.

(** A computation changes the state and returns a value or raises. *)
Definition M (A : Type) : Type := state -> state * (exn + A).

Definition ret {A} (a : A) : M A := fun st => (st, inr a).

Definition raise {A} (e : exn) : M A := fun st => (st, inl e).

Definition bind {A B} (c : M A) (k : A -> M B) : M B :=
  fun st =>
    match c st with
    | (st', inl e) => (st', inl e)
    | (st', inr a) => k a st'
    end.

Notation "x <- c ;; k" := (bind c (fun x => k))
  (at level 61, c at next level, right associativity).
Notation "c ;; k" := (bind c (fun _ => k))
  (at level 61, right associativity).

Fixpoint for_each {A} (xs : list A) (body : A -> M unit) : M unit :=
  match xs with
  | [] => ret tt
  | x :: rest => body x ;; for_each rest body
  end.

Definition spawn (command : str) (shell : bool) : M Z :=
  fun st =>
    match subprocess_run command shell (world st) with
    | (w, inl e) => (mkState w (log st), inl e)
    | (w, inr rc) => (mkState w (log st ++ [Exec command shell rc]), inr rc)
    end.

(** [eprint]: prints to stderr. *)
Definition eprint (line : str) : M unit :=
  fun st => (mkState (world st) (log st ++ [Eprint line]), inr tt).

(** [run(command, shell=False, check=True)]: runs a shell command; with
    [check] a non-zero exit status raises. *)
Definition run (command : str) (shell check : bool) : M unit :=
  rc <- spawn command shell ;;
  if check && negb (Z.eqb rc 0) then raise (CalledProcessError rc command)
  else ret tt.

(** [get_cmd_status]: runs a shell command and returns its exit status. *)
Definition get_cmd_status (command : str) : M Z := spawn command true.

(** [generate_and_commit_generated_code(revision_sha, targets=None)];
    [targets] is [None] or a list of target names, and [targets or [...]]
    takes the default for [None] and for the empty list. *)
Definition generate_and_commit_generated_code
  (revision_sha : str) (targets : option (list str)) : M unit :=
  let targets :=
    match targets with
    | None | Some [] =>
        [lit "codegen-client-test"; lit "codegen-server-test"; lit "aws:sdk"]
    | Some ts => ts
    end in
  (* Clean the build artifacts before continuing *)
  run (lit "rm -rf aws/sdk/build") false true ;;
  (if mem (lit "codegen-server-test") targets
   then run (lit "cd rust-runtime/aws-smithy-http-server-python/examples && make distclean")
            true true
   else ret tt) ;;
  run (lit "./gradlew codegen-core:clean codegen-client:clean codegen-server:clean aws:sdk-codegen:clean")
      false true ;;
  (* Generate code *)
  let tasks := join (lit " ") (map (fun t => t ++ lit ":assemble") targets) in
  run (lit "./gradlew --rerun-tasks " ++ tasks) false true ;;
  (if mem (lit "codegen-server-test") targets
   then run (lit "cd rust-runtime/aws-smithy-http-server-python/examples && make build")
            true false
   else ret tt) ;;
  (* Move generated code into codegen-diff/ directory *)
  run (lit "rm -rf " ++ OUTPUT_PATH) false true ;;
  run (lit "mkdir " ++ OUTPUT_PATH) false true ;;
  (if mem (lit "aws:sdk") targets
   then run (lit "mv aws/sdk/build/aws-sdk " ++ OUTPUT_PATH ++ lit "/") false true
   else ret tt) ;;
  for_each [lit "codegen-client"; lit "codegen-server"] (fun target =>
    if mem target targets then
      run (lit "mv " ++ target ++ lit "/build/smithyprojections/" ++ target ++
           lit " " ++ OUTPUT_PATH ++ lit "/") false true ;;
      (if str_eqb target (lit "codegen-server-test")
       then run (lit "mv rust-runtime/aws-smithy-http-server-python/examples/pokemon-service-server-sdk/ " ++
                 OUTPUT_PATH ++ lit "/codegen-server-test-python/") false false
       else ret tt)
    else ret tt) ;;
  (* Clean up the SDK directory *)
  run (lit "rm -f " ++ OUTPUT_PATH ++ lit "/aws-sdk/versions.toml") false true ;;
  (* Clean up the client-test folder *)
  run (lit "rm -rf " ++ OUTPUT_PATH ++ lit "/codegen-client-test/source") false true ;;
  run (lit "find " ++ OUTPUT_PATH ++ lit "/codegen-client-test | " ++
       lit "grep -E 'smithy-build-info.json|sources/manifest|model.json' | " ++
       lit "xargs rm -f") true true ;;
  (* Clean up the server-test folder *)
  run (lit "rm -rf " ++ OUTPUT_PATH ++ lit "/codegen-server-test/source") false true ;;
  run (lit "find " ++ OUTPUT_PATH ++ lit "/codegen-server-test | " ++
       lit "grep -E 'smithy-build-info.json|sources/manifest|model.json' | " ++
       lit "xargs rm -f") true true ;;
  run (lit "git add -f " ++ OUTPUT_PATH) false true ;;
  run (lit "git -c 'user.name=GitHub Action (generated code preview)' " ++
       lit "-c 'user.name=" ++ COMMIT_AUTHOR_NAME ++ lit "' " ++
       lit "-c 'user.email=" ++ COMMIT_AUTHOR_EMAIL ++ lit "' " ++
       lit "commit --no-verify -m 'Generated code for " ++ revision_sha ++
       lit "' --allow-empty") false true.

(** [make_diff(title, path_to_diff, base_commit_sha, head_commit_sha,
    suffix, whitespace)]: [None] when the two branches agree on the path,
    otherwise the location of the rendered diff. *)
Definition make_diff (title path_to_diff base_commit_sha head_commit_sha suffix : str)
  (whitespace : bool) : M (option str) :=
  let whitespace_flag := if whitespace then [] else lit "-b" in
  diff_exists <- get_cmd_status
    (lit "git diff --quiet " ++ whitespace_flag ++ lit " " ++
     BASE_BRANCH_NAME ++ lit " " ++ HEAD_BRANCH_NAME ++ lit " -- " ++ path_to_diff) ;;
  if Z.eqb diff_exists 0 then
    eprint (lit "No diff output for " ++ base_commit_sha ++ lit ".." ++
            head_commit_sha ++ lit " (" ++ suffix ++ lit ")") ;;
    ret None
  else
    let partial_output_path :=
      base_commit_sha ++ lit "/" ++ head_commit_sha ++ lit "/" ++ suffix in
    let full_output_path := OUTPUT_PATH ++ lit "/" ++ partial_output_path in
    run (lit "mkdir -p " ++ full_output_path) false true ;;
    run (lit "git diff --output=codegen-diff.txt -U30 " ++ whitespace_flag ++ lit " " ++
         BASE_BRANCH_NAME ++ lit " " ++ HEAD_BRANCH_NAME ++ lit " -- " ++ path_to_diff)
        false true ;;
    (* Generate HTML diff. This uses the difftags tool from the tools/ directory. *)
    let whitespace_context := if whitespace then [] else lit "(ignoring whitespace)" in
    let subtitle := lit "rev. " ++ head_commit_sha ++ lit " " ++ whitespace_context in
    let diff_cmd :=
      lit "difftags --output-dir " ++ full_output_path ++
      lit " --title " ++ [DQUOTE] ++ title ++ [DQUOTE] ++
      lit " --subtitle " ++ [DQUOTE] ++ subtitle ++ [DQUOTE] ++
      lit " codegen-diff.txt" in
    eprint (lit "Running diff cmd: " ++ diff_cmd) ;;
    run diff_cmd false true ;;
    ret (Some (partial_output_path ++ lit "/index.html")).

(** [make_diffs(base_commit_sha, head_commit_sha)]: the eight diffs, then
    the message. *)
Definition make_diffs (base_commit_sha head_commit_sha : str) : M str :=
  sdk_ws <- make_diff (lit "AWS SDK") (OUTPUT_PATH ++ lit "/aws-sdk")
              base_commit_sha head_commit_sha (lit "aws-sdk") true ;;
  sdk_nows <- make_diff (lit "AWS SDK") (OUTPUT_PATH ++ lit "/aws-sdk")
              base_commit_sha head_commit_sha (lit "aws-sdk-ignore-whitespace") false ;;
  client_ws <- make_diff (lit "Client Test") (OUTPUT_PATH ++ lit "/codegen-client-test")
              base_commit_sha head_commit_sha (lit "client-test") true ;;
  client_nows <- make_diff (lit "Client Test") (OUTPUT_PATH ++ lit "/codegen-client-test")
              base_commit_sha head_commit_sha (lit "client-test-ignore-whitespace") false ;;
  server_ws <- make_diff (lit "Server Test") (OUTPUT_PATH ++ lit "/codegen-server-test")
              base_commit_sha head_commit_sha (lit "server-test") true ;;
  server_nows <- make_diff (lit "Server Test") (OUTPUT_PATH ++ lit "/codegen-server-test")
              base_commit_sha head_commit_sha (lit "server-test-ignore-whitespace") false ;;
  server_ws_python <- make_diff (lit "Server Test Python")
              (OUTPUT_PATH ++ lit "/codegen-server-test-python")
              base_commit_sha head_commit_sha (lit "server-test-python") true ;;
  server_nows_python <- make_diff (lit "Server Test Python")
              (OUTPUT_PATH ++ lit "/codegen-server-test-python")
              base_commit_sha head_commit_sha
              (lit "server-test-python-ignore-whitespace") false ;;
  ret (make_diffs_message sdk_ws sdk_nows client_ws client_nows
                          server_ws server_nows server_ws_python server_nows_python).

End Shell.

Notation "x <- c ;; k" := (bind _ c (fun x => k))
  (at level 61, c at next level, right associativity).
Notation "c ;; k" := (bind _ c (fun _ => k))
  (at level 61, right associativity).

Arguments mkState {World}.
Arguments world {World}.
Arguments log {World}.
Arguments ret {World A}.
Arguments raise {World A}.
Arguments bind {World A B}.
Arguments for_each {World A}.
Arguments spawn {World}.
Arguments eprint {World}.
Arguments run {World}.
Arguments get_cmd_status {World}.
Arguments generate_and_commit_generated_code {World}.
Arguments make_diff {World}.
Arguments make_diffs {World}.

End DiffLib.

(* ================================================================== *)
(** ** Vocabulary of the properties *)
(* ================================================================== *)

Module DiffLibScenario.
Import PyStr DiffLib.

(** [c in s] for a single character. *)
Definition has_char (c : char) (s : str) : bool := existsb (N.eqb c) s.

(** A link fragment names its target: it is the target's "no difference"
    label or starts with the target's primary link into the CDN. *)
Definition link_for (title link : str) : Prop :=
  link = lit "No codegen difference in the " ++ title
  \/ startswith link
       (lit "[" ++ title ++ lit "](https://d2luzm2xt3nokh.cloudfront.net/codegen-diff/")
     = true.

(** Two outside worlds without state.  In the first every command exits
    with status 0, so that no path differs between the branches; in the
    second the quiet [git diff] reports a difference and everything else
    succeeds. *)
Definition all_succeed (command : str) (shell : bool) (w : unit)
  : unit * (exn + Z) :=
  (w, inr 0%Z).

Definition branches_differ (command : str) (shell : bool) (w : unit)
  : unit * (exn + Z) :=
  (w, inr (if startswith command (lit "git diff --quiet") then 1%Z else 0%Z)).

Definition start : state unit := mkState tt [].

(** The commands among the events. *)
Definition commands (events : list event) : list str :=
  flat_map (fun e => match e with Exec command _ _ => [command] | Eprint _ => [] end)
           events.

End DiffLibScenario.

Module FormatScenario.
Import PyStr Format.

(** A chunk qualifies as a record when six lines survive the filtering. *)
Definition qualifies (i : str) : bool := Nat.eqb (length (outputs_of i)) 6.

(** The table row of a chunk: of six surviving lines the first is dropped,
    the second is the SDK name and the other four are the timings.  A chunk
    that does not qualify has no row. *)
Definition row_of (i : str) : str :=
  match outputs_of i with
  | [_; sdk_name; dev; release; dev_all; release_all] =>
      lit "|" ++ sdk_name ++ lit "|" ++ dev ++ lit "|" ++ release ++ lit "|" ++
      dev_all ++ lit "|" ++ release_all ++ lit "|"
  | _ => []
  end.

(** A line: a text without line boundary. *)
Definition line (x : str) : bool := forallb (fun c => negb (is_linebreak c)) x.

(** The position between [a] and [b] in the text [a ++ b] is the start of a
    line: it is the start of the text, or [a] ends in a line boundary, and
    the position does not fall between the CR and the LF of one boundary. *)
Definition line_start (a b : str) : bool :=
  match a with
  | [] => true
  | _ :: _ =>
      is_linebreak (last a 0%N) &&
      negb (N.eqb (last a 0%N) CR && N.eqb (hd 0%N b) LF)
  end.

(** [insert_line x chunk chunk']: [chunk'] is [chunk] with the line [x]
    inserted, either in front of a line of [chunk] (or behind its last line
    when that one is terminated), or behind an unterminated last line. *)
Inductive insert_line (x : str) : str -> str -> Prop :=
| insert_before (a b : str) :
    line_start a b = true ->
    insert_line x (a ++ b) (a ++ x ++ [LF] ++ b)
| insert_behind (a : str) (t : char) :
    is_linebreak t = false ->
    insert_line x (a ++ [t]) (a ++ [t] ++ [LF] ++ x).

(** The pieces of [u ++ v] from the pieces of [u] and of [v], when no
    separator lies across the junction: the last piece of [u] and the first
    piece of [v] are one piece. *)
Fixpoint glue (us vs : list str) : list str :=
  match us with
  | [] => vs
  | [p] =>
      match vs with
      | [] => [p]
      | q :: vs' => (p ++ q) :: vs'
      end
  | u :: us' => u :: glue us' vs
  end.

(** The scenario of the specification, with its [header] line, and the log
    of one benchmark run as the formatter expects it. *)
Definition scenario_with_header : str :=
  lit "START" ++ [LF] ++ lit " header" ++ [LF] ++ lit " iam" ++ [LF] ++
  lit "201.92 seconds" ++ [LF] ++ lit "217.43 seconds" ++ [LF] ++
  lit "215.10 seconds" ++ [LF] ++ lit "187.71 seconds" ++ [LF] ++ lit "END".

Definition benchmark_log : str :=
  lit "START" ++ [LF] ++ lit "iam" ++ [LF] ++
  lit "201.92 seconds" ++ [LF] ++ lit "217.43 seconds" ++ [LF] ++
  lit "215.10 seconds" ++ [LF] ++ lit "187.71 seconds" ++ [LF] ++ lit "END".

Definition iam_row : str := lit "|iam|201.92|217.43|215.10|187.71|".

(** The lines of the record of that log, and a rule line as the benchmark
    tool draws them. *)
Definition iam_lines : str :=
  lit "iam" ++ [LF] ++
  lit "201.92 seconds" ++ [LF] ++ lit "217.43 seconds" ++ [LF] ++
  lit "215.10 seconds" ++ [LF] ++ lit "187.71 seconds" ++ [LF].

Definition rule : str := lit "+----------------+".

End FormatScenario.

Module DiffLibTrace.
Import PyStr DiffLib.

Section Trace.

Variable World : Type.

(** [emits P c]: whatever the state, every event [c] adds to the log
    satisfies [P]; nothing already in the log is touched. *)
Definition emits (P : event -> Prop) {A} (c : M World A) : Prop :=
  forall st, exists new, log (fst (c st)) = log st ++ new /\ Forall P new.

(** [returns_with P Q c]: when [c] returns normally it has added at least one
    event; the last one satisfies [Q] and the ones before it satisfy [P]. *)
Definition returns_with (P Q : event -> Prop) {A} (c : M World A) : Prop :=
  forall st st' a,
    c st = (st', inr a) ->
    exists events e,
      log st' = log st ++ events ++ [e] /\ Forall P events /\ Q e.

(** [returns_after P c]: when [c] returns normally, the events it has added
    satisfy [P]. *)
Definition returns_after (P : event -> Prop) {A} (c : M World A) : Prop :=
  forall st st' a,
    c st = (st', inr a) ->
    exists events, log st' = log st ++ events /\ Forall P events.

(** [succeeds c]: [c] returns normally from every state. *)
Definition succeeds {A} (c : M World A) : Prop :=
  forall st, exists st' a, c st = (st', inr a).

End Trace.

Arguments emits {World} P {A} c.
Arguments returns_with {World} P Q {A} c.
Arguments returns_after {World} P {A} c.
Arguments succeeds {World A} c.

(** The targets [generate_and_commit_generated_code] works on. *)
Definition effective_targets (targets : option (list str)) : list str :=
  match targets with
  | None | Some [] =>
      [lit "codegen-client-test"; lit "codegen-server-test"; lit "aws:sdk"]
  | Some ts => ts
  end.

(** An outside world in which only [make build] of the python examples
    fails. *)
Definition build_fails (command : str) (shell : bool) (w : unit)
  : unit * (exn + Z) :=
  (w, inr (if str_eqb command
                (lit "cd rust-runtime/aws-smithy-http-server-python/examples && make build")
           then 2%Z else 0%Z)).

(** An outside world in which every quiet [git diff] reports a difference
    and every other command succeeds. *)
Definition differ_all (command : str) (shell : bool) (w : unit)
  : unit * (exn + Z) :=
  (w, inr (if startswith command (lit "git diff --quiet ") then 1%Z else 0%Z)).

End DiffLibTrace.

Module FormatLog.
Import PyStr Format.

(** The line terminators [splitlines] knows, and a text made of lines that
    all end in the same terminator. *)
Definition terminators : list str :=
  [[LF]; [CR]; [CR; LF]; [11]; [12]; [28]; [29]; [30]; [133]; [8232]; [8233]]%N.

Definition unlines (term : str) (ls : list str) : str :=
  concat (map (fun l => l ++ term) ls).

(** One benchmark run: the SDK and its four compile times. *)
Record record : Type := mkRecord {
  sdk_name : str;
  dev : str;
  release : str;
  dev_all : str;
  release_all : str
}.

(** The characters of SDK names and of timings: lower-case letters, digits,
    the dot, the hyphen and the underscore. *)
Definition plain (c : char) : bool :=
  (N.leb 97 c && N.leb c 122) || (N.leb 48 c && N.leb c 57)
  || N.eqb c 46 || N.eqb c 45 || N.eqb c 95.

Definition well_formed (r : record) : bool :=
  forallb plain (sdk_name r) && forallb plain (dev r) && forallb plain (release r)
  && forallb plain (dev_all r) && forallb plain (release_all r).

(** A record in the log: between [START] and [END], after the rest of the
    [START] line, the name and the four timings on a line each. *)
Definition body_of (r : record) : str :=
  [LF] ++ sdk_name r ++ [LF] ++
  dev r ++ lit " seconds" ++ [LF] ++ release r ++ lit " seconds" ++ [LF] ++
  dev_all r ++ lit " seconds" ++ [LF] ++ release_all r ++ lit " seconds" ++ [LF].

Definition section_of (r : record) : str :=
  lit "START" ++ body_of r ++ lit "END" ++ [LF].

Definition log_of (rs : list record) : str := concat (map section_of rs).

Definition table_row (r : record) : str :=
  lit "|" ++ sdk_name r ++ lit "|" ++ dev r ++ lit "|" ++ release r ++ lit "|" ++
  dev_all r ++ lit "|" ++ release_all r ++ lit "|".

(** Two runs for the examples. *)
Definition iam_run : record :=
  mkRecord (lit "iam") (lit "201.92") (lit "217.43") (lit "215.10") (lit "187.71").

Definition s3_run : record :=
  mkRecord (lit "s3") (lit "301.05") (lit "322.80") (lit "310.11") (lit "290.47").

End FormatLog.

Module FormatScript.
Import PyStr Format.

(** [str.isspace] for one character: the whitespace of Unicode. *)
Definition isspace (c : char) : bool :=
  (N.leb 9 c && N.leb c 13) || (N.leb 28 c && N.leb c 32)
  || N.eqb c 133 || N.eqb c 160 || N.eqb c 5760
  || (N.leb 8192 c && N.leb c 8202)
  || N.eqb c 8232 || N.eqb c 8233 || N.eqb c 8239 || N.eqb c 8287
  || N.eqb c 12288.

Fixpoint lstrip (s : str) : str :=
  match s with
  | [] => []
  | c :: s' => if isspace c then lstrip s' else s
  end.

Definition rstrip (s : str) : str := rev (lstrip (rev s)).

(** [s.strip()]. *)
Definition strip (s : str) : str := lstrip (rstrip s).

(** The files the script sees: a path has contents or does not exist. *)
Definition files : Type := str -> option str.

Definition write (fs : files) (path text : str) : files :=
  fun p => if str_eqb p path then Some text else fs p.

Definition INPUT : str := lit "/tmp/compiletime-benchmark.txt".
Definition OUTPUT : str := lit "/tmp/compiletime-benchmark.md".

Inductive failure : Type :=
| FileNotFoundError (path : str)
| AssertionError (message : str)
| Raised (e : exn).

(** [parser(read_file())] as the script runs it: the file is opened and
    read, which fails when it does not exist; [out] is what has been printed
    so far, one entry per [print]. *)
Definition parse_input (fs : files) (out : list str) : failure + (list str * str) :=
  match fs INPUT with
  | None => inl (FileNotFoundError INPUT)
  | Some f =>
      match parser (read_file f) with
      | inl e => inl (Raised e)
      | inr (printed, markdown) => inr (out ++ printed, markdown)
      end
  end.

(** [test()]. *)
Definition test (fs : files) (out : list str) : failure + list str :=
  let s :=
    strip ([LF] ++
           lit "    | sdk name | dev | release | dev all features | release all features |" ++
           [LF] ++
           lit "    | -------- | --- | ------- | ---------------- | -------------------- |" ++
           [LF] ++
           lit "    |iam|201.92|217.43|215.10|187.71|" ++ [LF] ++
           lit "    ") in
  match parse_input fs out with
  | inl e => inl e
  | inr (out, markdown) =>
      let s2 := strip markdown in
      if str_eqb s2 s then inr out
      else inl (AssertionError (s2 ++ lit " " ++ [LF] ++ lit "== " ++ [LF] ++ s))
  end.

(** [main()]: the markdown is printed and written to the output file. *)
Definition main (fs : files) (out : list str) : failure + (list str * files) :=
  match parse_input fs out with
  | inl e => inl e
  | inr (out, markdown) => inr (out ++ [markdown], write fs OUTPUT markdown)
  end.

(** The script, [test()] followed by [main()]. *)
Definition script (fs : files) : failure + (list str * files) :=
  match test fs [] with
  | inl e => inl e
  | inr out => main fs out
  end.

(** A file system with the log of one [iam] run, and one with the log of
    another SDK. *)
Definition one_log (text : str) : files :=
  fun p => if str_eqb p INPUT then Some text else None.

End FormatScript.

(* ================================================================== *)
(** ** Facts about the string operations *)
(* ================================================================== *)

Module PyStrFacts.
Import PyStr.

Lemma startswith_app (p s : str) : startswith (p ++ s) p = true.
Proof.
  induction p as [|a p IH]; simpl.
  - reflexivity.
  - now rewrite N.eqb_refl, IH.
Qed.

Lemma contains_here (sub s : str) :
  startswith s sub = true -> contains sub s = true.
Proof.
  intros H. destruct s; simpl in *; now rewrite H.
Qed.

Lemma contains_app_r (sub a s : str) :
  contains sub s = true -> contains sub (a ++ s) = true.
Proof.
  intros H. induction a as [|c a IH]; simpl.
  - exact H.
  - fold (contains sub (a ++ s)). rewrite IH. apply orb_true_r.
Qed.

Lemma contains_middle (sub a b : str) : contains sub (a ++ sub ++ b) = true.
Proof.
  apply contains_app_r, contains_here, startswith_app.
Qed.

(** Right-nests concatenations and evaluates them on literals. *)
Ltac norm_str := repeat (rewrite <- ?app_assoc; simpl).

Lemma contains_middle2 (sub a b c : str) : contains sub (a ++ b ++ sub ++ c) = true.
Proof.
  rewrite app_assoc. apply contains_middle.
Qed.

(** *** [split] *)

Lemma split_from_skip (u v sep : str) :
  split_from (length u) (u ++ v) sep = split_from 0 v sep.
Proof.
  induction u as [|c u IH]; simpl; [reflexivity|exact IH].
Qed.

(** At an occurrence of the separator a piece ends and the scan resumes
    behind the occurrence. *)
Lemma split_at_sep (c0 : char) (sep' v : str) :
  split ((c0 :: sep') ++ v) (c0 :: sep') = [] :: split v (c0 :: sep').
Proof.
  unfold split.
  change (split_from 0 ((c0 :: sep') ++ v) (c0 :: sep'))
    with (if startswith ((c0 :: sep') ++ v) (c0 :: sep')
          then [] :: split_from (length (c0 :: sep') - 1) (sep' ++ v) (c0 :: sep')
          else cons_head c0 (split_from 0 (sep' ++ v) (c0 :: sep'))).
  rewrite startswith_app. f_equal.
  replace (length (c0 :: sep') - 1) with (length sep') by (simpl; lia).
  apply split_from_skip.
Qed.

(** Elsewhere the character joins the current piece. *)
Lemma split_no_sep (c : char) (s sep : str) :
  startswith (c :: s) sep = false ->
  split (c :: s) sep = cons_head c (split s sep).
Proof.
  intros H. unfold split.
  change (split_from 0 (c :: s) sep)
    with (if startswith (c :: s) sep
          then [] :: split_from (length sep - 1) s sep
          else cons_head c (split_from 0 s sep)).
  now rewrite H.
Qed.

Lemma startswith_other_head (c c0 : char) (s sep' : str) :
  c <> c0 -> startswith (c :: s) (c0 :: sep') = false.
Proof.
  intros H. simpl. apply N.eqb_neq in H. rewrite N.eqb_sym in H. now rewrite H.
Qed.

(** A piece free of the separator's first character runs up to the next
    occurrence of the separator. *)
Lemma split_piece (u v : str) (c0 : char) (sep' : str) :
  existsb (N.eqb c0) u = false ->
  split (u ++ (c0 :: sep') ++ v) (c0 :: sep') = u :: split v (c0 :: sep').
Proof.
  induction u as [|c u IH]; intros H.
  - apply split_at_sep.
  - simpl in H. apply orb_false_elim in H. destruct H as [Hc Hu].
    change ((c :: u) ++ (c0 :: sep') ++ v) with (c :: (u ++ (c0 :: sep') ++ v)).
    rewrite split_no_sep.
    + now rewrite (IH Hu).
    + apply startswith_other_head. apply N.eqb_neq. now rewrite N.eqb_sym.
Qed.

Lemma last_app (u v : str) (d : char) : v <> [] -> last (u ++ v) d = last v d.
Proof.
  intros Hv. induction u as [|c u IH]; [reflexivity|].
  simpl. destruct (u ++ v) eqn:E.
  - apply app_eq_nil in E. destruct E. congruence.
  - exact IH.
Qed.

Lemma split_nonempty (s sep : str) : split s sep <> [].
Proof.
  unfold split. destruct s as [|c s]; simpl; [discriminate|].
  destruct (startswith (c :: s) sep); [discriminate|].
  destruct (split_from 0 s sep); discriminate.
Qed.

Lemma startswith_inv (s p : str) :
  startswith s p = true -> exists r, s = p ++ r.
Proof.
  revert s. induction p as [|a p IH]; intros s H.
  - now exists s.
  - destruct s as [|b s]; simpl in H; [discriminate|].
    apply andb_prop in H. destruct H as [Hab Hs].
    apply N.eqb_eq in Hab. subst b.
    destruct (IH s Hs) as [r ->]. now exists r.
Qed.

(** An occurrence that begins in [a] and is not inside [a] runs over the
    end of [a]: it covers the last character of [a] and the first of what
    follows. *)
Lemma startswith_over_end (a y p : str) :
  startswith (a ++ y) p = true -> startswith a p = false -> a <> [] ->
  In (last a 0%N) p /\ In (hd 0%N y) p.
Proof.
  revert a. induction p as [|c p IH]; intros a H1 H2 Ha.
  - discriminate.
  - destruct a as [|d a]; [congruence|]. simpl in H1, H2.
    apply andb_prop in H1. destruct H1 as [Hcd H1].
    rewrite Hcd in H2. simpl in H2. apply N.eqb_eq in Hcd. subst d.
    destruct a as [|e a].
    + split; [now left|]. right.
      destruct p as [|c' p]; [discriminate|].
      destruct y as [|z y]; [discriminate|]. simpl in H1.
      apply andb_prop in H1. destruct H1 as [Hz _]. apply N.eqb_eq in Hz.
      subst z. now left.
    + destruct (IH (e :: a) H1 H2 ltac:(discriminate)) as [Hl Hh].
      split; right; assumption.
Qed.

(** No occurrence, one piece. *)
Lemma split_none (y : str) (c0 : char) (sep' : str) :
  contains (c0 :: sep') y = false -> split y (c0 :: sep') = [y].
Proof.
  induction y as [|c y IH]; intros H; [reflexivity|].
  simpl in H. apply orb_false_elim in H. destruct H as [Hs Hy].
  rewrite split_no_sep by exact Hs.
  now rewrite (IH Hy).
Qed.

(** *** [splitlines] *)

Lemma cons_head_app (c : char) (l m : list str) :
  l <> [] -> cons_head c (l ++ m) = cons_head c l ++ m.
Proof.
  destruct l; [congruence|reflexivity].
Qed.

Lemma splitlines_nonempty (s : str) : s <> [] -> splitlines s <> [].
Proof.
  destruct s as [|c s]; [congruence|]. intros _. simpl.
  destruct (is_linebreak c); [discriminate|].
  destruct (splitlines s); discriminate.
Qed.

Lemma splitlines_char (c : char) (s : str) :
  is_linebreak c = false -> splitlines (c :: s) = cons_head c (splitlines s).
Proof.
  intros H. simpl. now rewrite H.
Qed.

Lemma splitlines_break (c : char) (s : str) :
  is_linebreak c = true -> N.eqb c CR && N.eqb (hd 0%N s) LF = false ->
  splitlines (c :: s) = [] :: splitlines s.
Proof.
  intros H1 H2. simpl. rewrite H1.
  destruct (N.eqb c CR); [|reflexivity].
  destruct s as [|d s]; [reflexivity|]. simpl in H2. now rewrite H2.
Qed.

Lemma splitlines_crlf (s : str) : splitlines (CR :: LF :: s) = [] :: splitlines s.
Proof.
  reflexivity.
Qed.

(** The lines of a line: the line itself, unless it is empty. *)
Lemma splitlines_line (x : str) :
  forallb (fun c => negb (is_linebreak c)) x = true ->
  x <> [] -> splitlines x = [x].
Proof.
  induction x as [|c x IH]; [congruence|]. simpl forallb. intros H _.
  apply andb_prop in H. destruct H as [Hc Hx]. apply negb_true_iff in Hc.
  rewrite (splitlines_char _ _ Hc).
  destruct x as [|d x]; [reflexivity|].
  rewrite IH by (assumption || discriminate). reflexivity.
Qed.

(** A line followed by LF is the first line of the text. *)
Lemma splitlines_first_line (x b : str) :
  forallb (fun c => negb (is_linebreak c)) x = true ->
  splitlines (x ++ LF :: b) = x :: splitlines b.
Proof.
  induction x as [|c x IH]; simpl forallb; intros H.
  - reflexivity.
  - apply andb_prop in H. destruct H as [Hc Hx]. apply negb_true_iff in Hc.
    change ((c :: x) ++ LF :: b) with (c :: (x ++ LF :: b)).
    rewrite (splitlines_char _ _ Hc), (IH Hx). reflexivity.
Qed.

(** No line contains a line boundary. *)
Lemma splitlines_lines (s : str) :
  Forall (fun l => forallb (fun c => negb (is_linebreak c)) l = true) (splitlines s).
Proof.
  assert (G : forall n s, length s <= n ->
            Forall (fun l => forallb (fun c => negb (is_linebreak c)) l = true)
                   (splitlines s)).
  { clear s. induction n as [|n IH]; intros [|c s] Hlen; simpl in Hlen;
      try (constructor; fail); try lia.
    simpl. destruct (is_linebreak c) eqn:Hc.
    - constructor; [reflexivity|].
      destruct (N.eqb c CR); [|apply IH; lia].
      destruct s as [|d s]; [constructor|].
      destruct (N.eqb d LF); apply IH; simpl in *; lia.
    - specialize (IH s ltac:(lia)).
      destruct (splitlines s) as [|l ls]; simpl.
      + constructor; [|constructor]. simpl. now rewrite Hc.
      + inversion IH; subst. constructor; [|assumption].
        simpl. now rewrite Hc. }
  apply (G (length s)). lia.
Qed.

(** [replace] keeps what holds of all characters of the text and of the
    replacement. *)
Lemma replace_from_forallb (P : char -> bool) (old new : str) :
  forallb P new = true ->
  forall s skip, forallb P s = true -> forallb P (replace_from skip s old new) = true.
Proof.
  intros Hnew. induction s as [|c s IH]; intros skip H; [reflexivity|].
  simpl in H. apply andb_prop in H. destruct H as [Hc Hs].
  destruct skip as [|k].
  - change (replace_from 0 (c :: s) old new)
      with (if startswith (c :: s) old
            then new ++ replace_from (length old - 1) s old new
            else c :: replace_from 0 s old new).
    destruct (startswith (c :: s) old).
    + rewrite forallb_app, Hnew. now apply IH.
    + simpl. rewrite Hc. now apply IH.
  - simpl. now apply IH.
Qed.

End PyStrFacts.

(* ================================================================== *)
(** ** Properties of diff_lib.py *)
(* ================================================================== *)

Module DiffLibSpec.
Import PyStr PyStrFacts DiffLib DiffLibScenario.

(** [diff_link] splits into its two links. *)
Lemma diff_link_present (diff_text empty_diff_text loc alternate_text : str)
  (alternate_location : option str) :
  diff_link diff_text empty_diff_text (Some loc) alternate_text alternate_location =
  (lit "[" ++ diff_text ++ lit "](" ++ CDN_URL ++ lit "/codegen-diff/" ++ loc ++ lit ")") ++
  lit " (" ++
  (lit "[" ++ alternate_text ++ lit "](" ++ CDN_URL ++ lit "/codegen-diff/" ++
   fmt alternate_location ++ lit ")") ++
  lit ")".
Proof.
  unfold diff_link, fmt at 1.
  norm_str.
  reflexivity.
Qed.

Lemma diff_link_contains_alternate (diff_text empty_diff_text loc alternate_text : str)
  (alternate_location : option str) :
  contains
    (lit "[" ++ alternate_text ++ lit "](" ++ CDN_URL ++ lit "/codegen-diff/" ++
     fmt alternate_location ++ lit ")")
    (diff_link diff_text empty_diff_text (Some loc) alternate_text alternate_location)
  = true.
Proof.
  rewrite diff_link_present. apply contains_middle2.
Qed.

(** C5. [diff_link] is a function of its five arguments alone.  With no
    diff location it returns the empty-diff label unchanged; with a diff
    location the markdown contains the primary link and the alternate
    ("ignoring whitespace") link, both of which point below
    [CDN_URL/codegen-diff/]. *)
Theorem diff_link_spec (diff_text empty_diff_text alternate_text : str)
  (alternate_location : option str) :
  diff_link diff_text empty_diff_text None alternate_text alternate_location
    = empty_diff_text
  /\ forall loc : str,
       let primary :=
         lit "[" ++ diff_text ++ lit "](" ++
         lit "https://d2luzm2xt3nokh.cloudfront.net" ++ lit "/codegen-diff/" ++
         loc ++ lit ")" in
       let alternate :=
         lit "[" ++ alternate_text ++ lit "](" ++
         lit "https://d2luzm2xt3nokh.cloudfront.net" ++ lit "/codegen-diff/" ++
         fmt alternate_location ++ lit ")" in
       let markdown :=
         diff_link diff_text empty_diff_text (Some loc) alternate_text
                   alternate_location in
       markdown = primary ++ lit " (" ++ alternate ++ lit ")"
       /\ contains primary markdown = true
       /\ contains alternate markdown = true.
Proof.
  split; [reflexivity|].
  intros loc primary alternate markdown.
  assert (E : markdown = primary ++ lit " (" ++ alternate ++ lit ")")
    by apply diff_link_present.
  split; [exact E|]. split.
  - rewrite E. apply (contains_middle primary []).
  - exact (diff_link_contains_alternate diff_text empty_diff_text loc
             alternate_text alternate_location).
Qed.

(** C10. With a diff location but no alternate location the alternate link
    is still produced, and its URL ends in the text [None]; the same shows
    in the message of [make_diffs] when only the whitespace-insensitive diff
    of a target is empty. *)
Theorem diff_link_alternate_none (diff_text empty_diff_text loc alternate_text : str) :
  diff_link diff_text empty_diff_text (Some loc) alternate_text None =
    lit "[" ++ diff_text ++ lit "](https://d2luzm2xt3nokh.cloudfront.net/codegen-diff/" ++
    loc ++ lit ") ([" ++ alternate_text ++
    lit "](https://d2luzm2xt3nokh.cloudfront.net/codegen-diff/None))"
  /\ contains
       (lit "[" ++ alternate_text ++
        lit "](https://d2luzm2xt3nokh.cloudfront.net/codegen-diff/None)")
       (diff_link diff_text empty_diff_text (Some loc) alternate_text None) = true
  /\ forall client_ws client_nows server_ws server_nows py_ws py_nows,
       contains
         (lit "[ignoring whitespace](https://d2luzm2xt3nokh.cloudfront.net/codegen-diff/None)")
         (make_diffs_message (Some loc) None client_ws client_nows
                             server_ws server_nows py_ws py_nows) = true.
Proof.
  split; [|split].
  - unfold diff_link. simpl. norm_str. reflexivity.
  - exact (diff_link_contains_alternate diff_text empty_diff_text loc alternate_text None).
  - intros. unfold make_diffs_message.
    rewrite (diff_link_present (lit "AWS SDK")).
    match goal with
    | |- contains ?sub (?a ++ ?b ++ (?p ++ ?q ++ ?alt ++ ?r) ++ ?rest) = true =>
        replace (a ++ b ++ (p ++ q ++ alt ++ r) ++ rest)
          with ((a ++ b ++ p ++ q) ++ alt ++ (r ++ rest))
          by (norm_str; reflexivity)
    end.
    apply contains_middle.
Qed.

Section Execution.

Variable World : Type.
Variable subprocess_run : str -> bool -> World -> World * (exn + Z).

Let M := M World.

(** *** Running a computation one call at a time *)

Lemma bind_spawn {B} (command : str) (shell : bool) (k : Z -> M B) st w rc X :
  subprocess_run command shell (world st) = (w, inr rc) ->
  k rc (mkState w (log st ++ [Exec command shell rc])) = X ->
  bind (spawn subprocess_run command shell) k st = X.
Proof.
  intros H HX. unfold DiffLib.bind, DiffLib.spawn. now rewrite H.
Qed.

Lemma bind_eprint {B} (line : str) (k : unit -> M B) st X :
  k tt (mkState (world st) (log st ++ [Eprint line])) = X ->
  bind (eprint line) k st = X.
Proof.
  intros HX. exact HX.
Qed.

Lemma bind_run_ok {B} (command : str) (shell check : bool) (k : unit -> M B) st w X :
  subprocess_run command shell (world st) = (w, inr 0%Z) ->
  k tt (mkState w (log st ++ [Exec command shell 0%Z])) = X ->
  bind (run subprocess_run command shell check) k st = X.
Proof.
  intros H HX. unfold DiffLib.run, DiffLib.bind, DiffLib.spawn. rewrite H.
  simpl. now rewrite andb_false_r.
Qed.

Lemma bind_run_unchecked {B} (command : str) (shell : bool) (k : unit -> M B)
  st w rc X :
  subprocess_run command shell (world st) = (w, inr rc) ->
  k tt (mkState w (log st ++ [Exec command shell rc])) = X ->
  bind (run subprocess_run command shell false) k st = X.
Proof.
  intros H HX. unfold DiffLib.run, DiffLib.bind, DiffLib.spawn. now rewrite H.
Qed.

Lemma bind_run_fail {B} (command : str) (shell : bool) (k : unit -> M B) st w rc :
  subprocess_run command shell (world st) = (w, inr rc) ->
  rc <> 0%Z ->
  bind (run subprocess_run command shell true) k st =
    (mkState w (log st ++ [Exec command shell rc]),
     inl (CalledProcessError rc command)).
Proof.
  intros H Hrc. unfold DiffLib.run, DiffLib.bind, DiffLib.spawn. rewrite H.
  simpl. apply Z.eqb_neq in Hrc. now rewrite Hrc.
Qed.

Lemma bind_run_raise {B} (command : str) (shell check : bool) (k : unit -> M B)
  st w e :
  subprocess_run command shell (world st) = (w, inl e) ->
  bind (run subprocess_run command shell check) k st = (mkState w (log st), inl e).
Proof.
  intros H. unfold DiffLib.run, DiffLib.bind, DiffLib.spawn. now rewrite H.
Qed.

Lemma bind_inr {A B} (c : M A) (k : A -> M B) st st' (b : B) :
  bind c k st = (st', inr b) ->
  exists a st1, c st = (st1, inr a) /\ k a st1 = (st', inr b).
Proof.
  unfold DiffLib.bind. destruct (c st) as [st1 [e|a]]; intros H.
  - discriminate.
  - now exists a, st1.
Qed.

(** *** [generate_and_commit_generated_code] *)

(** C1. Called with the default targets, the function is the straight-line
    program below, whatever the outside world does: of the generated output
    only [aws/sdk/build/aws-sdk] is moved into [tmp-codegen-diff].  The loop
    looks for the names [codegen-client] and [codegen-server], which are not
    among the targets [codegen-client-test] and [codegen-server-test], so
    neither smithyprojections directory nor the python server example is
    moved.  In a world where every command succeeds these fifteen commands
    run, in this order. *)
Theorem generate_default_moves_only_sdk (revision_sha : str) :
  generate_and_commit_generated_code subprocess_run revision_sha None =
    (run subprocess_run (lit "rm -rf aws/sdk/build") false true ;;
     run subprocess_run
       (lit "cd rust-runtime/aws-smithy-http-server-python/examples && make distclean")
       true true ;;
     run subprocess_run
       (lit "./gradlew codegen-core:clean codegen-client:clean codegen-server:clean aws:sdk-codegen:clean")
       false true ;;
     run subprocess_run
       (lit "./gradlew --rerun-tasks codegen-client-test:assemble codegen-server-test:assemble aws:sdk:assemble")
       false true ;;
     run subprocess_run
       (lit "cd rust-runtime/aws-smithy-http-server-python/examples && make build")
       true false ;;
     run subprocess_run (lit "rm -rf tmp-codegen-diff") false true ;;
     run subprocess_run (lit "mkdir tmp-codegen-diff") false true ;;
     run subprocess_run (lit "mv aws/sdk/build/aws-sdk tmp-codegen-diff/") false true ;;
     run subprocess_run (lit "rm -f tmp-codegen-diff/aws-sdk/versions.toml") false true ;;
     run subprocess_run (lit "rm -rf tmp-codegen-diff/codegen-client-test/source")
       false true ;;
     run subprocess_run
       (lit "find tmp-codegen-diff/codegen-client-test | grep -E 'smithy-build-info.json|sources/manifest|model.json' | xargs rm -f")
       true true ;;
     run subprocess_run (lit "rm -rf tmp-codegen-diff/codegen-server-test/source")
       false true ;;
     run subprocess_run
       (lit "find tmp-codegen-diff/codegen-server-test | grep -E 'smithy-build-info.json|sources/manifest|model.json' | xargs rm -f")
       true true ;;
     run subprocess_run (lit "git add -f tmp-codegen-diff") false true ;;
     run subprocess_run
       (lit "git -c 'user.name=GitHub Action (generated code preview)' -c 'user.name=GitHub Action (generated code preview)' -c 'user.email=generated-code-action@github.com' commit --no-verify -m 'Generated code for " ++
        revision_sha ++ lit "' --allow-empty")
       false true)
  /\ commands
       (log (fst (generate_and_commit_generated_code all_succeed (lit "0a1b") None start)))
     = [ lit "rm -rf aws/sdk/build";
         lit "cd rust-runtime/aws-smithy-http-server-python/examples && make distclean";
         lit "./gradlew codegen-core:clean codegen-client:clean codegen-server:clean aws:sdk-codegen:clean";
         lit "./gradlew --rerun-tasks codegen-client-test:assemble codegen-server-test:assemble aws:sdk:assemble";
         lit "cd rust-runtime/aws-smithy-http-server-python/examples && make build";
         lit "rm -rf tmp-codegen-diff";
         lit "mkdir tmp-codegen-diff";
         lit "mv aws/sdk/build/aws-sdk tmp-codegen-diff/";
         lit "rm -f tmp-codegen-diff/aws-sdk/versions.toml";
         lit "rm -rf tmp-codegen-diff/codegen-client-test/source";
         lit "find tmp-codegen-diff/codegen-client-test | grep -E 'smithy-build-info.json|sources/manifest|model.json' | xargs rm -f";
         lit "rm -rf tmp-codegen-diff/codegen-server-test/source";
         lit "find tmp-codegen-diff/codegen-server-test | grep -E 'smithy-build-info.json|sources/manifest|model.json' | xargs rm -f";
         lit "git add -f tmp-codegen-diff";
         lit "git -c 'user.name=GitHub Action (generated code preview)' -c 'user.name=GitHub Action (generated code preview)' -c 'user.email=generated-code-action@github.com' commit --no-verify -m 'Generated code for 0a1b' --allow-empty" ].
Proof.
  split.
  - reflexivity.
  - vm_compute. reflexivity.
Qed.

(** *** [make_diff] *)

(** Every value [make_diff] returns is [None] or the location of the
    rendered index below [base/head/suffix]. *)
Lemma make_diff_value (title path_to_diff base_commit_sha head_commit_sha suffix : str)
  (whitespace : bool) st st' (r : option str) :
  make_diff subprocess_run title path_to_diff base_commit_sha head_commit_sha
            suffix whitespace st = (st', inr r) ->
  r = None \/
  r = Some (base_commit_sha ++ lit "/" ++ head_commit_sha ++ lit "/" ++ suffix ++
            lit "/index.html").
Proof.
  unfold DiffLib.make_diff. intros H.
  apply bind_inr in H. destruct H as (rc & st1 & _ & H).
  destruct (Z.eqb rc 0).
  - apply bind_inr in H. destruct H as (_ & st2 & _ & H).
    inversion H. now left.
  - apply bind_inr in H. destruct H as (_ & st2 & _ & H).
    apply bind_inr in H. destruct H as (_ & st3 & _ & H).
    apply bind_inr in H. destruct H as (_ & st4 & _ & H).
    apply bind_inr in H. destruct H as (_ & st5 & _ & H).
    inversion H. right. f_equal. now norm_str.
Qed.

(** C6. [make_diff] first runs the quiet [git diff] of the two branches on
    the given path.  It returns [None] exactly when that command exits with
    status 0, and then it has only written the "No diff output" line on
    standard error.  With any other status it never returns [None]: it
    creates [tmp-codegen-diff/base/head/suffix], writes the unified diff with
    30 lines of context to [codegen-diff.txt], runs [difftags] on it and
    returns [base/head/suffix/index.html]; should one of these three
    commands fail, the call raises instead of returning. *)
Theorem make_diff_spec
  (title path_to_diff base_commit_sha head_commit_sha suffix : str)
  (whitespace : bool) (st : state World) (w1 : World) (status : Z) :
  let flag := if whitespace then [] else lit "-b" in
  let branches_and_path :=
    flag ++ lit " __tmp-localonly-base __tmp-localonly-head -- " ++ path_to_diff in
  let quiet := lit "git diff --quiet " ++ branches_and_path in
  let dir := base_commit_sha ++ lit "/" ++ head_commit_sha ++ lit "/" ++ suffix in
  let mkdir := lit "mkdir -p tmp-codegen-diff/" ++ dir in
  let unified := lit "git diff --output=codegen-diff.txt -U30 " ++ branches_and_path in
  let render :=
    lit "difftags --output-dir tmp-codegen-diff/" ++ dir ++
    lit " --title " ++ [DQUOTE] ++ title ++ [DQUOTE] ++
    lit " --subtitle " ++ [DQUOTE] ++ lit "rev. " ++ head_commit_sha ++ lit " " ++
    (if whitespace then [] else lit "(ignoring whitespace)") ++ [DQUOTE] ++
    lit " codegen-diff.txt" in
  let result :=
    make_diff subprocess_run title path_to_diff base_commit_sha head_commit_sha
              suffix whitespace st in
  subprocess_run quiet true (world st) = (w1, inr status) ->
  (snd result = inr None <-> status = 0%Z)
  /\ (status = 0%Z ->
      result =
        (mkState w1
           (log st ++
            [Exec quiet true 0;
             Eprint (lit "No diff output for " ++ base_commit_sha ++ lit ".." ++
                     head_commit_sha ++ lit " (" ++ suffix ++ lit ")")]),
         inr None))
  /\ (status <> 0%Z ->
      forall w2 w3 w4,
        subprocess_run mkdir false w1 = (w2, inr 0%Z) ->
        subprocess_run unified false w2 = (w3, inr 0%Z) ->
        subprocess_run render false w3 = (w4, inr 0%Z) ->
        result =
          (mkState w4
             (log st ++
              [Exec quiet true status; Exec mkdir false 0; Exec unified false 0;
               Eprint (lit "Running diff cmd: " ++ render); Exec render false 0]),
           inr (Some (dir ++ lit "/index.html"))))
  /\ (status <> 0%Z ->
      snd result = inr (Some (dir ++ lit "/index.html"))
      \/ exists e, snd result = inl e).
Proof.
  intros flag branches_and_path quiet dir mkdir unified render result Hquiet.
  assert (Hzero : status = 0%Z ->
            result =
              (mkState w1
                 (log st ++
                  [Exec quiet true 0;
                   Eprint (lit "No diff output for " ++ base_commit_sha ++ lit ".." ++
                           head_commit_sha ++ lit " (" ++ suffix ++ lit ")")]),
               inr None)).
  { intros ->. unfold result, DiffLib.make_diff, DiffLib.get_cmd_status.
    eapply bind_spawn; [exact Hquiet|]. simpl Z.eqb. cbv iota.
    eapply bind_eprint. unfold ret. simpl log. simpl world.
    now rewrite <- app_assoc. }
  assert (Hstep : status <> 0%Z ->
            result =
              bind (run subprocess_run mkdir false true) (fun _ =>
              bind (run subprocess_run unified false true) (fun _ =>
              bind (eprint (lit "Running diff cmd: " ++ render)) (fun _ =>
              bind (run subprocess_run render false true) (fun _ =>
              ret (Some (dir ++ lit "/index.html"))))))
                (mkState w1 (log st ++ [Exec quiet true status]))).
  { intros Hne. unfold result, DiffLib.make_diff, DiffLib.get_cmd_status.
    eapply bind_spawn; [exact Hquiet|].
    apply Z.eqb_neq in Hne. rewrite Hne.
    unfold mkdir, unified, render, dir, branches_and_path, flag.
    repeat f_equal; try (now norm_str).
    all: destruct whitespace; now norm_str. }
  assert (Hvalue : status <> 0%Z ->
            snd result = inr (Some (dir ++ lit "/index.html"))
            \/ exists e, snd result = inl e).
  { intros Hne. rewrite (Hstep Hne).
    set (st1 := mkState w1 (log st ++ [Exec quiet true status])).
    destruct (subprocess_run mkdir false (world st1)) as [w2 [e2|rc2]] eqn:E2;
      [right; exists e2; now erewrite bind_run_raise by eauto|].
    destruct (Z.eq_dec rc2 0) as [->|N2];
      [|right; eexists; now erewrite bind_run_fail by eauto].
    erewrite (bind_run_ok _ _ _ _ _ _ _ E2 eq_refl).
    set (st2 := mkState w2 _).
    destruct (subprocess_run unified false (world st2)) as [w3 [e3|rc3]] eqn:E3;
      [right; exists e3; now erewrite bind_run_raise by eauto|].
    destruct (Z.eq_dec rc3 0) as [->|N3];
      [|right; eexists; now erewrite bind_run_fail by eauto].
    erewrite (bind_run_ok _ _ _ _ _ _ _ E3 eq_refl).
    erewrite (bind_eprint _ _ _ _ eq_refl).
    set (st3 := mkState _ _).
    destruct (subprocess_run render false (world st3)) as [w4 [e4|rc4]] eqn:E4;
      [right; exists e4; now erewrite bind_run_raise by eauto|].
    destruct (Z.eq_dec rc4 0) as [->|N4];
      [|right; eexists; now erewrite bind_run_fail by eauto].
    erewrite (bind_run_ok _ _ _ _ _ _ _ E4 eq_refl). now left. }
  split; [|split; [exact Hzero|split; [|exact Hvalue]]].
  - split.
    + intros Hnone. destruct (Z.eq_dec status 0) as [E|Hne]; [exact E|].
      destruct (Hvalue Hne) as [E|(e & E)];
        rewrite E in Hnone; discriminate.
    + intros E. now rewrite (Hzero E).
  - intros Hne w2 w3 w4 E2 E3 E4. rewrite (Hstep Hne).
    eapply bind_run_ok; [exact E2|].
    eapply bind_run_ok; [exact E3|].
    eapply bind_eprint.
    eapply bind_run_ok; [exact E4|].
    unfold ret. simpl log. simpl world.
    now rewrite <- !app_assoc.
Qed.

(** *** [make_diffs] *)

Lemma has_char_app (c : char) (a b : str) :
  has_char c (a ++ b) = has_char c a || has_char c b.
Proof.
  apply existsb_app.
Qed.

Lemma diff_link_no_backslash (diff_text empty_diff_text alternate_text : str)
  (diff_location alternate_location : option str) :
  has_char BACKSLASH diff_text = false ->
  has_char BACKSLASH empty_diff_text = false ->
  has_char BACKSLASH alternate_text = false ->
  has_char BACKSLASH (fmt diff_location) = false ->
  has_char BACKSLASH (fmt alternate_location) = false ->
  has_char BACKSLASH
    (diff_link diff_text empty_diff_text diff_location alternate_text alternate_location)
  = false.
Proof.
  intros H1 H2 H3 H4 H5.
  destruct diff_location as [loc|]; unfold diff_link; [|exact H2].
  rewrite !has_char_app, H1, H3, H4, H5. reflexivity.
Qed.

(** The message is built from the results of the eight diffs. *)
Lemma make_diffs_returns (base_commit_sha head_commit_sha : str) st st' (message : str) :
  make_diffs subprocess_run base_commit_sha head_commit_sha st = (st', inr message) ->
  exists sdk_ws sdk_nows client_ws client_nows server_ws server_nows
         server_ws_python server_nows_python,
    message = make_diffs_message sdk_ws sdk_nows client_ws client_nows
                                 server_ws server_nows
                                 server_ws_python server_nows_python
    /\ (has_char BACKSLASH base_commit_sha = false ->
        has_char BACKSLASH head_commit_sha = false ->
        Forall (fun d => has_char BACKSLASH (fmt d) = false)
               [sdk_ws; sdk_nows; client_ws; client_nows; server_ws; server_nows;
                server_ws_python; server_nows_python]).
Proof.
  unfold DiffLib.make_diffs. intros H.
  apply bind_inr in H. destruct H as (d1 & s1 & V1 & H).
  apply bind_inr in H. destruct H as (d2 & s2 & V2 & H).
  apply bind_inr in H. destruct H as (d3 & s3 & V3 & H).
  apply bind_inr in H. destruct H as (d4 & s4 & V4 & H).
  apply bind_inr in H. destruct H as (d5 & s5 & V5 & H).
  apply bind_inr in H. destruct H as (d6 & s6 & V6 & H).
  apply bind_inr in H. destruct H as (d7 & s7 & V7 & H).
  apply bind_inr in H. destruct H as (d8 & s8 & V8 & H).
  exists d1, d2, d3, d4, d5, d6, d7, d8. split.
  - now inversion H.
  - intros Hb Hh.
    repeat constructor;
      match goal with
      | V : make_diff _ _ _ _ _ _ _ _ = (_, inr ?d) |- has_char _ (fmt ?d) = false =>
          apply make_diff_value in V; destruct V as [->| ->]; unfold fmt;
          [reflexivity|rewrite !has_char_app, Hb, Hh; reflexivity]
      end.
Qed.

(** C4. Whatever the eight diff results are, the message of [make_diffs] is
    the introductory line followed by four bullets, one each for the SDK,
    the client test, the server test and the python server test, in this
    order, and every one of them ends in an escaped newline (a backslash
    and the letter n).  When the results contain no backslash, splitting the
    message at the escaped newlines yields the introduction, exactly these
    four bullet lines and an empty rest.  Every message [make_diffs]
    returns is such a message, and commit hashes without a backslash lead to
    results without one. *)
Theorem make_diffs_four_bullets :
  (forall sdk_ws sdk_nows client_ws client_nows server_ws server_nows
          server_ws_python server_nows_python : option str,
     let message :=
       make_diffs_message sdk_ws sdk_nows client_ws client_nows server_ws server_nows
                          server_ws_python server_nows_python in
     exists sdk client server python : str,
       message =
         lit "A new generated diff is ready to view." ++ lit "\n" ++
         lit "- " ++ sdk ++ lit "\n" ++
         lit "- " ++ client ++ lit "\n" ++
         lit "- " ++ server ++ lit "\n" ++
         lit "- " ++ python ++ lit "\n"
       /\ link_for (lit "AWS SDK") sdk
       /\ link_for (lit "Client Test") client
       /\ link_for (lit "Server Test") server
       /\ link_for (lit "Server Test Python") python
       /\ (Forall (fun d => has_char BACKSLASH (fmt d) = false)
                  [sdk_ws; sdk_nows; client_ws; client_nows; server_ws; server_nows;
                   server_ws_python; server_nows_python] ->
           split message (lit "\n") =
             [lit "A new generated diff is ready to view.";
              lit "- " ++ sdk; lit "- " ++ client; lit "- " ++ server;
              lit "- " ++ python; []]))
  /\ (forall (base_commit_sha head_commit_sha : str) (st st' : state World)
             (message : str),
        make_diffs subprocess_run base_commit_sha head_commit_sha st
          = (st', inr message) ->
        exists sdk_ws sdk_nows client_ws client_nows server_ws server_nows
               server_ws_python server_nows_python,
          message = make_diffs_message sdk_ws sdk_nows client_ws client_nows
                                       server_ws server_nows
                                       server_ws_python server_nows_python
          /\ (has_char BACKSLASH base_commit_sha = false ->
              has_char BACKSLASH head_commit_sha = false ->
              Forall (fun d => has_char BACKSLASH (fmt d) = false)
                     [sdk_ws; sdk_nows; client_ws; client_nows; server_ws;
                      server_nows; server_ws_python; server_nows_python])).
Proof.
  split; [|exact make_diffs_returns].
  intros d1 d2 d3 d4 d5 d6 d7 d8 message.
  set (sdk := diff_link (lit "AWS SDK") (lit "No codegen difference in the AWS SDK")
                d1 (lit "ignoring whitespace") d2).
  set (client := diff_link (lit "Client Test")
                   (lit "No codegen difference in the Client Test")
                   d3 (lit "ignoring whitespace") d4).
  set (server := diff_link (lit "Server Test")
                   (lit "No codegen difference in the Server Test")
                   d5 (lit "ignoring whitespace") d6).
  set (python := diff_link (lit "Server Test Python")
                   (lit "No codegen difference in the Server Test Python")
                   d7 (lit "ignoring whitespace") d8).
  assert (E : message =
                lit "A new generated diff is ready to view." ++ lit "\n" ++
                lit "- " ++ sdk ++ lit "\n" ++ lit "- " ++ client ++ lit "\n" ++
                lit "- " ++ server ++ lit "\n" ++ lit "- " ++ python ++ lit "\n")
    by reflexivity.
  exists sdk, client, server, python.
  split; [exact E|].
  split; [destruct d1; [right|left]; reflexivity|].
  split; [destruct d3; [right|left]; reflexivity|].
  split; [destruct d5; [right|left]; reflexivity|].
  split; [destruct d7; [right|left]; reflexivity|].
  intros Hd.
  repeat match goal with
         | H : Forall _ (_ :: _) |- _ => inversion H; subst; clear H
         end.
  assert (Hsdk : has_char BACKSLASH (lit "- " ++ sdk) = false)
    by (rewrite has_char_app; unfold sdk;
        rewrite diff_link_no_backslash by (reflexivity || assumption); reflexivity).
  assert (Hclient : has_char BACKSLASH (lit "- " ++ client) = false)
    by (rewrite has_char_app; unfold client;
        rewrite diff_link_no_backslash by (reflexivity || assumption); reflexivity).
  assert (Hserver : has_char BACKSLASH (lit "- " ++ server) = false)
    by (rewrite has_char_app; unfold server;
        rewrite diff_link_no_backslash by (reflexivity || assumption); reflexivity).
  assert (Hpython : has_char BACKSLASH (lit "- " ++ python) = false)
    by (rewrite has_char_app; unfold python;
        rewrite diff_link_no_backslash by (reflexivity || assumption); reflexivity).
  rewrite E. clear E. clearbody sdk client server python. clear message.
  change (lit "\n") with (BACKSLASH :: lit "n").
  rewrite (split_piece (lit "A new generated diff is ready to view.")) by reflexivity.
  f_equal.
  rewrite (app_assoc (lit "- ") sdk), (split_piece (lit "- " ++ sdk)) by exact Hsdk.
  f_equal.
  rewrite (app_assoc (lit "- ") client), (split_piece (lit "- " ++ client))
    by exact Hclient.
  f_equal.
  rewrite (app_assoc (lit "- ") server), (split_piece (lit "- " ++ server))
    by exact Hserver.
  f_equal.
  rewrite <- (app_nil_r (BACKSLASH :: lit "n")) at 1.
  rewrite (app_assoc (lit "- ") python), (split_piece (lit "- " ++ python))
    by exact Hpython.
  reflexivity.
Qed.

End Execution.

Lemma make_diffs_four_bullets_witness :
  exists st' message sdk client server python,
    make_diffs branches_differ (lit "0a1b") (lit "2c3d") start = (st', inr message)
    /\ has_char BACKSLASH (lit "0a1b") = false
    /\ has_char BACKSLASH (lit "2c3d") = false
    /\ split message (lit "\n") =
         [lit "A new generated diff is ready to view.";
          lit "- " ++ sdk; lit "- " ++ client; lit "- " ++ server;
          lit "- " ++ python; []].
Proof.
  destruct (make_diffs branches_differ (lit "0a1b") (lit "2c3d") start)
    as [st' [e|message]] eqn:Hrun.
  - vm_compute in Hrun. discriminate.
  - destruct (make_diffs_four_bullets unit branches_differ) as [Hshape Hreturns].
    destruct (Hreturns _ _ _ _ _ Hrun)
      as (d1 & d2 & d3 & d4 & d5 & d6 & d7 & d8 & E & Hclean).
    destruct (Hshape d1 d2 d3 d4 d5 d6 d7 d8)
      as (sdk & client & server & python & _ & _ & _ & _ & _ & Hsplit).
    exists st', message, sdk, client, server, python.
    split; [reflexivity|]. split; [reflexivity|]. split; [reflexivity|].
    rewrite E. apply Hsplit. apply Hclean; reflexivity.
Defined.

Lemma make_diff_spec_witness :
  (all_succeed
     (lit "git diff --quiet  __tmp-localonly-base __tmp-localonly-head -- tmp-codegen-diff/aws-sdk")
     true tt = (tt, inr 0%Z)
   /\ snd (make_diff all_succeed (lit "AWS SDK") (lit "tmp-codegen-diff/aws-sdk")
                     (lit "0a1b") (lit "2c3d") (lit "aws-sdk") true start)
      = inr None)
  /\ (branches_differ
        (lit "git diff --quiet -b __tmp-localonly-base __tmp-localonly-head -- tmp-codegen-diff/aws-sdk")
        true tt = (tt, inr 1%Z)
      /\ snd (make_diff branches_differ (lit "AWS SDK") (lit "tmp-codegen-diff/aws-sdk")
                        (lit "0a1b") (lit "2c3d") (lit "aws-sdk-ignore-whitespace")
                        false start)
         = inr (Some (lit "0a1b/2c3d/aws-sdk-ignore-whitespace/index.html"))).
Proof.
  split.
  - split; [reflexivity|].
    destruct (make_diff_spec unit all_succeed (lit "AWS SDK")
                (lit "tmp-codegen-diff/aws-sdk") (lit "0a1b") (lit "2c3d")
                (lit "aws-sdk") true start tt 0%Z eq_refl) as (_ & H & _).
    rewrite (H eq_refl). reflexivity.
  - split; [reflexivity|].
    destruct (make_diff_spec unit branches_differ (lit "AWS SDK")
                (lit "tmp-codegen-diff/aws-sdk") (lit "0a1b") (lit "2c3d")
                (lit "aws-sdk-ignore-whitespace") false start tt 1%Z eq_refl)
      as (_ & _ & H & _).
    rewrite (H ltac:(discriminate) tt tt tt eq_refl eq_refl eq_refl). reflexivity.
Defined.

End DiffLibSpec.

(* ================================================================== *)
(** ** Properties of format.py *)
(* ================================================================== *)

Module FormatSpec.
Import PyStr PyStrFacts Format FormatScenario.

(** *** The loop of [parser] *)

(** An iteration prints the chunk and appends its row, if it has one; the
    index [outputs[0]] is always in range. *)
Lemma parser_step_row (printed : list str) (markdown i : str) :
  parser_step printed markdown i = inr (printed ++ [i], markdown ++ row_of i).
Proof.
  unfold parser_step, row_of.
  destruct (outputs_of i) as [|o0 [|o1 [|o2 [|o3 [|o4 [|o5 [|o6 rest]]]]]]];
    simpl; rewrite ?app_nil_r; try reflexivity.
  do 2 f_equal. now norm_str.
Qed.

Lemma parser_loop_rows (iter : list str) :
  forall (printed : list str) (markdown : str),
    parser_loop printed markdown iter =
      inr (printed ++ iter, markdown ++ concat (map row_of iter)).
Proof.
  induction iter as [|i rest IH]; intros printed markdown; simpl.
  - now rewrite !app_nil_r.
  - rewrite parser_step_row, IH. now rewrite <- !app_assoc.
Qed.

Lemma parser_rows (iter : list str) :
  parser iter = inr (iter, markdown_init ++ concat (map row_of iter)).
Proof.
  unfold parser. now rewrite parser_loop_rows.
Qed.

Lemma qualifies_six (i : str) : qualifies i = true <-> length (outputs_of i) = 6.
Proof.
  unfold qualifies. apply Nat.eqb_eq.
Qed.

Lemma row_of_unqualified (i : str) : qualifies i = false -> row_of i = [].
Proof.
  unfold qualifies, row_of. intros H.
  destruct (outputs_of i) as [|o0 [|o1 [|o2 [|o3 [|o4 [|o5 [|o6 rest]]]]]]];
    try reflexivity.
  discriminate.
Qed.

Lemma rows_of_qualifying (iter : list str) :
  concat (map row_of iter) = concat (map row_of (filter qualifies iter)).
Proof.
  induction iter as [|i rest IH]; [reflexivity|]. simpl.
  destruct (qualifies i) eqn:Hq; simpl.
  - now rewrite IH.
  - now rewrite (row_of_unqualified i Hq), IH.
Qed.

(** *** The scenario of the specification *)

(** C2, as stated, fails: on the scenario text the chunk between [START] and
    [END] has seven lines without [+] (an empty one, [ header], [ iam] and
    the four timings), so it is skipped and the output is the header block
    alone, without the row. *)
Lemma scenario_with_header_has_no_row :
  exists printed markdown,
    parser (read_file scenario_with_header) = inr (printed, markdown)
    /\ map (fun i => length (outputs_of i)) (read_file scenario_with_header) = [0; 7; 0]
    /\ markdown = markdown_init
    /\ contains iam_row markdown = false.
Proof.
  eexists. eexists. split; [rewrite parser_rows; reflexivity|].
  split; [vm_compute; reflexivity|].
  split; vm_compute; reflexivity.
Qed.

(** C2, amended.  On the log of one run, the text
    [START\niam\n201.92 seconds\n217.43 seconds\n215.10 seconds\n187.71 seconds\nEND]
    without the [ header] line and with the SDK name at the start of its
    line, six lines survive in the chunk and the output is the header block
    followed by the row [|iam|201.92|217.43|215.10|187.71|]. *)
Theorem benchmark_log_yields_iam_row :
  exists printed markdown,
    parser (read_file benchmark_log) = inr (printed, markdown)
    /\ map (fun i => length (outputs_of i)) (read_file benchmark_log) = [0; 6; 0]
    /\ markdown = markdown_init ++ lit "|iam|201.92|217.43|215.10|187.71|"
    /\ contains (lit "|iam|201.92|217.43|215.10|187.71|") markdown = true.
Proof.
  eexists. eexists. split; [rewrite parser_rows; reflexivity|].
  split; [vm_compute; reflexivity|].
  split; vm_compute; reflexivity.
Qed.

(** Without the [ header] line but with the SDK name indented as in the
    scenario, six lines survive and the indentation stays in the row:
    [parser] strips nothing but [" seconds"]. *)
Example indented_name_row :
  let log :=
    lit "START" ++ [LF] ++ lit " iam" ++ [LF] ++
    lit "201.92 seconds" ++ [LF] ++ lit "217.43 seconds" ++ [LF] ++
    lit "215.10 seconds" ++ [LF] ++ lit "187.71 seconds" ++ [LF] ++ lit "END" in
  parser (read_file log) =
    inr (read_file log, markdown_init ++ lit "| iam|201.92|217.43|215.10|187.71|").
Proof.
  vm_compute. reflexivity.
Qed.

(** *** Rows and chunks *)

(** C3. [parser] raises no error, and every chunk it is given contributes to
    the returned markdown either its row, when exactly six lines survive
    the filtering (the lines without [+], with [" seconds"] removed), or
    nothing at all, when any other number of lines survives.  The row is
    made of the second to sixth surviving line. *)
Theorem parser_row_iff_six_lines (iter : list str) :
  exists rows : list str,
    parser iter = inr (iter, markdown_init ++ concat rows)
    /\ Forall2
         (fun i row =>
            let outputs :=
              map (fun l => replace l (lit " seconds") [])
                  (filter (fun l => negb (contains (lit "+") l)) (splitlines i)) in
            (length outputs = 6
             /\ row <> []
             /\ exists first sdk_name dev release dev_all release_all,
                  outputs = [first; sdk_name; dev; release; dev_all; release_all]
                  /\ row = lit "|" ++ sdk_name ++ lit "|" ++ dev ++ lit "|" ++
                           release ++ lit "|" ++ dev_all ++ lit "|" ++
                           release_all ++ lit "|")
            \/ (length outputs <> 6 /\ row = []))
         iter rows.
Proof.
  exists (map row_of iter). split; [apply parser_rows|].
  induction iter as [|i rest IH]; simpl; constructor; [|exact IH].
  cbv zeta. fold (outputs_of i). unfold row_of.
  destruct (outputs_of i) as [|o0 [|o1 [|o2 [|o3 [|o4 [|o5 [|o6 more]]]]]]];
    try (right; split; [simpl; lia|reflexivity]).
  left. split; [reflexivity|]. split; [discriminate|].
  now exists o0, o1, o2, o3, o4, o5.
Qed.

(** A chunk with five lines and no separator: nothing is appended. *)
Example five_lines_no_row :
  let chunk :=
    [LF] ++ lit "iam" ++ [LF] ++ lit "201.92 seconds" ++ [LF] ++
    lit "217.43 seconds" ++ [LF] ++ lit "215.10 seconds" ++ [LF] in
  length (outputs_of chunk) = 5
  /\ parser [chunk] = inr ([chunk], markdown_init).
Proof.
  split; vm_compute; reflexivity.
Qed.

(** C8. Whatever the chunks are, the returned markdown starts with the same
    header block: a newline, the indented header line, the indented row of
    dashes and the indentation of the next line; the data rows come behind
    it, and when no chunk qualifies the header block is all there is. *)
Theorem parser_header_prefix (iter : list str) :
  exists rows : str,
    parser iter =
      inr (iter,
           ([LF] ++
            lit "    | sdk name | dev | release | dev all features | release all features |" ++
            [LF] ++
            lit "    | -------- | --- | ------- | ---------------- | -------------------- |" ++
            [LF] ++
            lit "    ") ++ rows)
    /\ (Forall (fun i => length (outputs_of i) <> 6) iter -> rows = []).
Proof.
  exists (concat (map row_of iter)). split; [apply parser_rows|].
  intros H. induction H as [|i rest Hi _ IH]; [reflexivity|]. simpl.
  rewrite IH, app_nil_r. apply row_of_unqualified.
  destruct (qualifies i) eqn:Hq; [|reflexivity].
  apply qualifies_six in Hq. contradiction.
Qed.

(** *** Rows and lines *)

Lemma outputs_are_lines (i : str) : Forall (fun o => line o = true) (outputs_of i).
Proof.
  unfold outputs_of. apply Forall_forall. intros o Hin.
  apply in_map_iff in Hin. destruct Hin as (l & <- & Hl).
  apply filter_In in Hl. destruct Hl as [Hl _].
  apply replace_from_forallb; [reflexivity|].
  pose proof (splitlines_lines i) as Hlines.
  rewrite Forall_forall in Hlines. now apply Hlines.
Qed.

Lemma row_of_line (i : str) : line (row_of i) = true.
Proof.
  pose proof (outputs_are_lines i) as H. unfold row_of.
  destruct (outputs_of i) as [|o0 [|o1 [|o2 [|o3 [|o4 [|o5 [|o6 rest]]]]]]];
    try reflexivity.
  repeat match goal with
         | H : Forall _ (_ :: _) |- _ => inversion H; subst; clear H
         end.
  unfold line in *. rewrite !forallb_app.
  repeat match goal with H : forallb _ _ = true |- _ => rewrite H; clear H end.
  reflexivity.
Qed.

Lemma concat_lines (rows : list str) :
  Forall (fun r => line r = true) rows -> line (concat rows) = true.
Proof.
  induction 1 as [|r rows Hr _ IH]; [reflexivity|].
  simpl. unfold line in *. now rewrite forallb_app, Hr, IH.
Qed.

(** C9. The rows of the qualifying chunks are appended one after the other,
    the first one directly behind the indentation that ends the header
    block, and no row contains a line boundary: the last line of the output
    is that indentation followed by all the rows.  In particular two
    qualifying chunks give the header block followed by both rows with
    nothing in between. *)
Theorem parser_rows_on_one_line (iter : list str) :
  let rows := concat (map row_of (filter qualifies iter)) in
  parser iter =
    inr (iter,
         ([LF] ++
          lit "    | sdk name | dev | release | dev all features | release all features |" ++
          [LF] ++
          lit "    | -------- | --- | ------- | ---------------- | -------------------- |" ++
          [LF]) ++
         lit "    " ++ rows)
  /\ line (lit "    " ++ rows) = true
  /\ (forall i j : str,
        qualifies i = true -> qualifies j = true ->
        parser [i; j] = inr ([i; j], markdown_init ++ row_of i ++ row_of j)
        /\ startswith (row_of i) (lit "|") = true
        /\ startswith (row_of j) (lit "|") = true).
Proof.
  intros rows. split; [|split].
  - rewrite parser_rows, rows_of_qualifying. reflexivity.
  - unfold line. rewrite forallb_app. simpl.
    apply concat_lines. apply Forall_forall. intros r Hr.
    apply in_map_iff in Hr. destruct Hr as (i & <- & _). apply row_of_line.
  - intros i j Hi Hj. split; [|split].
    + rewrite parser_rows. simpl. now rewrite app_nil_r.
    + apply qualifies_six in Hi. unfold row_of.
      destruct (outputs_of i) as [|o0 [|o1 [|o2 [|o3 [|o4 [|o5 [|o6 rest]]]]]]];
        try discriminate. reflexivity.
    + apply qualifies_six in Hj. unfold row_of.
      destruct (outputs_of j) as [|o0 [|o1 [|o2 [|o3 [|o4 [|o5 [|o6 rest]]]]]]];
        try discriminate. reflexivity.
Qed.

(** *** Inserting a separator line *)

Lemma line_start_cons (c d : char) (a b : str) :
  line_start (c :: d :: a) b = line_start (d :: a) b.
Proof.
  reflexivity.
Qed.

(** At the start of a line the text falls into the lines before and the
    lines behind. *)
Lemma splitlines_app (a b : str) :
  line_start a b = true -> splitlines (a ++ b) = splitlines a ++ splitlines b.
Proof.
  assert (G : forall n a, length a <= n -> line_start a b = true ->
                splitlines (a ++ b) = splitlines a ++ splitlines b).
  { clear a. induction n as [|n IH]; intros [|c a'] Hlen Hls; simpl in Hlen;
      try lia; try reflexivity.
    destruct a' as [|d a''].
    - unfold line_start in Hls. simpl last in Hls.
      apply andb_prop in Hls. destruct Hls as [Hc Hcr].
      apply negb_true_iff in Hcr.
      change ([c] ++ b) with (c :: b).
      rewrite (splitlines_break c b Hc Hcr).
      rewrite (splitlines_break c [] Hc) by apply andb_false_r.
      reflexivity.
    - rewrite line_start_cons in Hls.
      change ((c :: d :: a'') ++ b) with (c :: ((d :: a'') ++ b)).
      destruct (is_linebreak c) eqn:Hc.
      + destruct (N.eqb c CR && N.eqb d LF) eqn:Hcrlf.
        * apply andb_prop in Hcrlf. destruct Hcrlf as [H1 H2].
          apply N.eqb_eq in H1, H2. subst c d.
          change ((LF :: a'') ++ b) with (LF :: (a'' ++ b)).
          rewrite !splitlines_crlf. simpl app. f_equal.
          apply IH; [simpl in Hlen; lia|].
          destruct a''; [reflexivity|exact Hls].
        * rewrite (splitlines_break c ((d :: a'') ++ b) Hc Hcrlf).
          rewrite (splitlines_break c (d :: a'') Hc Hcrlf).
          simpl app. f_equal. apply (IH (d :: a'')); [simpl in *; lia|exact Hls].
      + rewrite !(splitlines_char c _ Hc).
        rewrite (IH (d :: a'')) by (simpl in *; lia || exact Hls).
        apply cons_head_app. apply splitlines_nonempty. discriminate. }
  apply (G (length a)). lia.
Qed.

(** A terminator behind an unterminated last line adds no line. *)
Lemma splitlines_terminate (a : str) (t : char) :
  is_linebreak t = false -> splitlines (a ++ [t] ++ [LF]) = splitlines (a ++ [t]).
Proof.
  intros Ht.
  assert (G : forall n a, length a <= n ->
                splitlines (a ++ [t] ++ [LF]) = splitlines (a ++ [t])).
  { clear a. induction n as [|n IH]; intros [|c a'] Hlen; simpl in Hlen; try lia.
    - simpl. now rewrite Ht.
    - simpl. now rewrite Ht.
    - change ((c :: a') ++ [t] ++ [LF]) with (c :: (a' ++ [t] ++ [LF])).
      change ((c :: a') ++ [t]) with (c :: (a' ++ [t])).
      destruct (is_linebreak c) eqn:Hc.
      + destruct a' as [|d a''].
        * simpl. rewrite Hc, Ht.
          destruct (N.eqb c CR); [|reflexivity].
          replace (N.eqb t LF) with false; [reflexivity|].
          symmetry. apply N.eqb_neq. intros ->. discriminate.
        * destruct (N.eqb c CR && N.eqb d LF) eqn:Hcrlf.
          -- apply andb_prop in Hcrlf. destruct Hcrlf as [H1 H2].
             apply N.eqb_eq in H1, H2. subst c d.
             change ((LF :: a'') ++ [t] ++ [LF]) with (LF :: (a'' ++ [t] ++ [LF])).
             change ((LF :: a'') ++ [t]) with (LF :: (a'' ++ [t])).
             rewrite !splitlines_crlf. f_equal. apply IH. simpl in Hlen. lia.
          -- rewrite (splitlines_break c ((d :: a'') ++ [t] ++ [LF]) Hc Hcrlf).
             rewrite (splitlines_break c ((d :: a'') ++ [t]) Hc Hcrlf).
             f_equal. apply (IH (d :: a'')). simpl in *. lia.
      + rewrite !(splitlines_char c _ Hc). f_equal. apply IH. lia. }
  apply (G (length a)). lia.
Qed.

(** Inserting a line into a chunk inserts it into the list of its lines. *)
Lemma insert_line_lines (x chunk chunk' : str) :
  insert_line x chunk chunk' -> line x = true -> x <> [] ->
  exists before behind,
    splitlines chunk = before ++ behind
    /\ splitlines chunk' = before ++ x :: behind.
Proof.
  intros Hins Hx Hne. destruct Hins as [a b Hstart|a t Ht].
  - exists (splitlines a), (splitlines b). split.
    + now apply splitlines_app.
    + assert (Hstart' : line_start a (x ++ [LF] ++ b) = true).
      { destruct a as [|c a]; [reflexivity|]. unfold line_start in *.
        apply andb_prop in Hstart. destruct Hstart as [H1 _]. rewrite H1.
        destruct x as [|y x]; [congruence|]. simpl in Hx.
        apply andb_prop in Hx. destruct Hx as [Hy _].
        assert (E : N.eqb (hd 0%N ((y :: x) ++ [LF] ++ b)) LF = false).
        { apply N.eqb_neq. simpl. intros ->. discriminate. }
        rewrite E, andb_false_r. reflexivity. }
      rewrite (splitlines_app _ _ Hstart').
      change (x ++ [LF] ++ b) with (x ++ LF :: b).
      now rewrite (splitlines_first_line x b Hx).
  - exists (splitlines (a ++ [t])), []. split.
    + now rewrite app_nil_r.
    + rewrite <- (splitlines_terminate a t Ht).
      replace (a ++ [t] ++ [LF] ++ x) with ((a ++ [t] ++ [LF]) ++ x)
        by now rewrite <- !app_assoc.
      rewrite splitlines_app.
      * now rewrite (splitlines_line x Hx Hne).
      * assert (E : a ++ [t] ++ [LF] = (a ++ [t]) ++ [LF]) by now rewrite <- app_assoc.
        rewrite E. clear E.
        destruct (a ++ [t]) as [|c r] eqn:Er.
        -- reflexivity.
        -- unfold line_start.
           replace (last ((c :: r) ++ [LF]) 0%N) with LF by (symmetry; apply last_last).
           reflexivity.
Qed.

Lemma contains_plus_nonempty (x : str) : contains (lit "+") x = true -> x <> [].
Proof.
  intros H ->. discriminate.
Qed.

(** A line with [+] is filtered out, so the surviving lines are the same. *)
Lemma outputs_of_insert (x chunk chunk' : str) :
  insert_line x chunk chunk' -> line x = true -> contains (lit "+") x = true ->
  outputs_of chunk' = outputs_of chunk.
Proof.
  intros Hins Hx Hplus.
  destruct (insert_line_lines x chunk chunk' Hins Hx (contains_plus_nonempty x Hplus))
    as (before & behind & E & E').
  unfold outputs_of. rewrite E, E', !filter_app. simpl. now rewrite Hplus.
Qed.

(** C7. Inserting a line that contains [+] into a chunk does not change the
    markdown [parser] returns: the line may go in front of any line of the
    chunk or behind its last line, and the chunk may stand anywhere among
    the chunks handed to [parser]. *)
Theorem parser_ignores_plus_lines (before behind : list str) (chunk chunk' x : str) :
  line x = true ->
  contains (lit "+") x = true ->
  insert_line x chunk chunk' ->
  exists markdown : str,
    parser (before ++ chunk :: behind) = inr (before ++ chunk :: behind, markdown)
    /\ parser (before ++ chunk' :: behind) = inr (before ++ chunk' :: behind, markdown).
Proof.
  intros Hx Hplus Hins.
  exists (markdown_init ++ concat (map row_of (before ++ chunk :: behind))).
  split; [apply parser_rows|].
  rewrite parser_rows. do 3 f_equal.
  rewrite !map_app. simpl. do 2 f_equal.
  unfold row_of. now rewrite (outputs_of_insert x chunk chunk' Hins Hx Hplus).
Qed.

(** *** Separator lines in the text of the log *)

Lemma cons_head_glue (c : char) (us vs : list str) :
  us <> [] -> cons_head c (glue us vs) = glue (cons_head c us) vs.
Proof.
  destruct us as [|u [|u' us]]; [congruence| |reflexivity].
  intros _. destruct vs; reflexivity.
Qed.

Lemma glue_cons (u : str) (us vs : list str) :
  us <> [] -> glue (u :: us) vs = u :: glue us vs.
Proof.
  destruct us; [congruence|reflexivity].
Qed.

Lemma glue_last (us : list str) (p q : str) (vs : list str) :
  glue (us ++ [p]) (q :: vs) = us ++ (p ++ q) :: vs.
Proof.
  induction us as [|u us IH]; [reflexivity|].
  change ((u :: us) ++ [p]) with (u :: (us ++ [p])).
  rewrite glue_cons by (destruct us; discriminate).
  now rewrite IH.
Qed.

(** Where the first part of a text is empty or ends in a character that is
    not in the separator, the pieces of the text are those of its parts,
    glued. *)
Lemma split_app (c0 : char) (sep' a y : str) :
  a = [] \/ ~ In (last a 0%N) (c0 :: sep') ->
  split (a ++ y) (c0 :: sep') = glue (split a (c0 :: sep')) (split y (c0 :: sep')).
Proof.
  set (sep := c0 :: sep').
  assert (G : forall n (a : str), length a <= n ->
                a = [] \/ ~ In (last a 0%N) sep ->
                split (a ++ y) sep = glue (split a sep) (split y sep)).
  { clear a. induction n as [|n IH]; intros [|c a'] Hlen Hend; simpl in Hlen; try lia.
    - simpl. destruct (split y sep) eqn:E; [now apply split_nonempty in E|reflexivity].
    - simpl. destruct (split y sep) eqn:E; [now apply split_nonempty in E|reflexivity].
    - destruct Hend as [Hend|Hend]; [discriminate|].
      destruct (startswith (c :: a') sep) eqn:Hs.
      + destruct (startswith_inv _ _ Hs) as [r Hr]. rewrite Hr.
        assert (Hr_len : length r <= n).
        { apply (f_equal (@length _)) in Hr. rewrite length_app in Hr.
          unfold sep in Hr. simpl in Hr. unfold char in *. lia. }
        rewrite <- app_assoc. unfold sep. rewrite !split_at_sep. fold sep.
        rewrite glue_cons by apply split_nonempty.
        f_equal. apply IH; [exact Hr_len|].
        destruct r as [|e r]; [now left|right].
        rewrite Hr in Hend. unfold sep in Hend.
        now rewrite last_app in Hend by discriminate.
      + assert (Hs' : startswith ((c :: a') ++ y) sep = false).
        { destruct (startswith ((c :: a') ++ y) sep) eqn:Hs'; [|reflexivity].
          destruct (startswith_over_end _ _ _ Hs' Hs ltac:(discriminate)) as [Hin _].
          contradiction. }
        change ((c :: a') ++ y) with (c :: (a' ++ y)) in *.
        rewrite (split_no_sep c (a' ++ y) sep Hs'), (split_no_sep c a' sep Hs).
        rewrite IH.
        * apply cons_head_glue, split_nonempty.
        * lia.
        * destruct a' as [|d a'']; [now left|right; exact Hend]. }
  apply (G (length a)). lia.
Qed.

(** The last piece of such a text ends like the text. *)
Lemma split_last_piece (c0 : char) (sep' a : str) :
  a <> [] -> ~ In (last a 0%N) (c0 :: sep') ->
  exists us p, split a (c0 :: sep') = us ++ [p] /\ p <> [] /\ last p 0%N = last a 0%N.
Proof.
  set (sep := c0 :: sep').
  assert (G : forall n (a : str), length a <= n -> a <> [] ->
                ~ In (last a 0%N) sep ->
                exists us p, split a sep = us ++ [p] /\ p <> [] /\
                             last p 0%N = last a 0%N).
  { clear a. induction n as [|n IH]; intros [|c a'] Hlen Hne Hend; simpl in Hlen;
      try lia; try congruence.
    destruct (startswith (c :: a') sep) eqn:Hs.
    - destruct (startswith_inv _ _ Hs) as [r Hr].
      assert (Hr_len : length r <= n).
      { apply (f_equal (@length _)) in Hr. rewrite length_app in Hr.
        unfold sep in Hr. simpl in Hr. unfold char in *. lia. }
      rewrite Hr in *. clear Hr.
      destruct r as [|e r].
      + exfalso. apply Hend. rewrite app_nil_r.
        unfold sep. clear. generalize c0.
        induction sep' as [|d sep' IHs]; intros c1; [now left|].
        right. apply (IHs d).
      + rewrite last_app in Hend by discriminate.
        destruct (IH (e :: r) Hr_len ltac:(discriminate) Hend) as (us & p & E & Hp & Hl).
        exists ([] :: us), p. unfold sep. rewrite split_at_sep. fold sep.
        rewrite E. split; [reflexivity|]. split; [exact Hp|].
        now rewrite last_app by discriminate.
    - rewrite (split_no_sep c a' sep Hs).
      destruct a' as [|d a''].
      + exists [], [c]. repeat split. discriminate.
      + destruct (IH (d :: a'') ltac:(simpl in *; lia) ltac:(discriminate) Hend)
          as (us & p & E & Hp & Hl).
        rewrite E. destruct us as [|u us].
        * exists [], (c :: p). split; [reflexivity|]. split; [discriminate|].
          destruct p; [congruence|exact Hl].
        * exists ((c :: u) :: us), p. split; [reflexivity|]. now split. }
  apply (G (length a)). lia.
Qed.

(** The first piece begins like the text, unless it is empty. *)
Lemma split_first_piece (b sep : str) :
  exists q vs, split b sep = q :: vs /\ (q = [] \/ hd 0%N q = hd 0%N b).
Proof.
  destruct b as [|c b].
  - exists [], []. split; [reflexivity|now left].
  - destruct (startswith (c :: b) sep) eqn:Hs.
    + unfold split. simpl split_from. rewrite Hs.
      eexists. eexists. split; [reflexivity|now left].
    + rewrite (split_no_sep c b sep Hs).
      destruct (split b sep) as [|q vs] eqn:E; [now apply split_nonempty in E|].
      exists (c :: q), vs. split; [reflexivity|now right].
Qed.

Lemma contains_no_end (c0 : char) (sep' x : str) (t : char) :
  contains (c0 :: sep') x = false -> ~ In t (c0 :: sep') ->
  contains (c0 :: sep') (x ++ [t]) = false.
Proof.
  intros Hx Ht. induction x as [|c x IH].
  - simpl. apply orb_false_intro; [|reflexivity].
    apply andb_false_intro1. apply N.eqb_neq. intros ->. apply Ht. now left.
  - simpl in Hx. apply orb_false_elim in Hx. destruct Hx as [Hs Hx].
    change (contains (c0 :: sep') ((c :: x) ++ [t]))
      with (startswith ((c :: x) ++ [t]) (c0 :: sep') ||
            contains (c0 :: sep') (x ++ [t])).
    rewrite (IH Hx), orb_false_r.
    destruct (startswith ((c :: x) ++ [t]) (c0 :: sep')) eqn:Hs'; [|reflexivity].
    destruct (startswith_over_end _ _ _ Hs' Hs ltac:(discriminate)) as [_ Hin].
    contradiction.
Qed.

(** Splitting a text at a separator without line boundary commutes with
    inserting, at the start of a line, a line that does not contain the
    separator: the pieces are the same but for the one that receives the
    line, at the start of one of its own lines. *)
Lemma split_insert (c0 : char) (sep' a b x : str) :
  forallb (fun c => negb (is_linebreak c)) (c0 :: sep') = true ->
  line_start a b = true ->
  contains (c0 :: sep') x = false ->
  exists us p q vs,
    split (a ++ b) (c0 :: sep') = us ++ (p ++ q) :: vs
    /\ split (a ++ x ++ [LF] ++ b) (c0 :: sep') = us ++ (p ++ x ++ [LF] ++ q) :: vs
    /\ line_start p q = true.
Proof.
  set (sep := c0 :: sep'). intros Hsep Hstart Hx.
  assert (Hbreak : forall t, is_linebreak t = true -> ~ In t sep).
  { intros t Ht Hin. rewrite forallb_forall in Hsep.
    apply Hsep in Hin. now rewrite Ht in Hin. }
  assert (Ha : a = [] \/ ~ In (last a 0%N) sep).
  { destruct a as [|c a]; [now left|right]. unfold line_start in Hstart.
    apply andb_prop in Hstart. now apply Hbreak. }
  assert (Hline : split ((x ++ [LF]) ++ b) sep = glue [x ++ [LF]] (split b sep)).
  { unfold sep. rewrite split_app.
    - f_equal. apply split_none. apply contains_no_end; [exact Hx|].
      now apply Hbreak.
    - right. rewrite last_last. now apply Hbreak. }
  destruct (split_first_piece b sep) as (q & vs & Eb & Hq).
  assert (Epieces : exists us p, split a sep = us ++ [p] /\ line_start p q = true).
  { destruct a as [|c a'].
    - now exists [], [].
    - destruct Ha as [Ha|Ha]; [discriminate|].
      destruct (split_last_piece c0 sep' (c :: a') ltac:(discriminate) Ha)
        as (us & p & E & Hp & Hl).
      exists us, p. split; [exact E|].
      destruct p as [|d p]; [congruence|].
      unfold line_start in *. rewrite Hl.
      apply andb_prop in Hstart. destruct Hstart as [H1 H2]. rewrite H1. simpl.
      destruct Hq as [->|Hq]; [now rewrite andb_false_r|].
      now rewrite Hq. }
  destruct Epieces as (us & p & Ea & Hpq).
  exists us, p, q, vs. split; [|split; [|exact Hpq]].
  - unfold sep in *. now rewrite (split_app c0 sep' a b Ha), Ea, Eb, glue_last.
  - replace (a ++ x ++ [LF] ++ b) with (a ++ ((x ++ [LF]) ++ b))
      by now rewrite <- !app_assoc.
    unfold sep in *. rewrite (split_app c0 sep' a _ Ha), Hline, Ea, Eb.
    simpl glue at 2. rewrite glue_last. now rewrite <- !app_assoc.
Qed.

(** The chunks [read_file] cuts are the same but for the one that receives
    the line. *)
Lemma read_file_insert (a b x : str) :
  line_start a b = true ->
  contains (lit "START") x = false ->
  contains (lit "END") x = false ->
  exists before chunk chunk' behind,
    read_file (a ++ b) = before ++ chunk :: behind
    /\ read_file (a ++ x ++ [LF] ++ b) = before ++ chunk' :: behind
    /\ insert_line x chunk chunk'.
Proof.
  intros Hstart HS HE. unfold read_file.
  destruct (split_insert 83%N (lit "TART") a b x eq_refl Hstart HS)
    as (us & p & q & vs & E1 & E1' & Hpq).
  destruct (split_insert 69%N (lit "ND") p q x eq_refl Hpq HE)
    as (us2 & p2 & q2 & vs2 & E2 & E2' & Hpq2).
  change (lit "START") with (@cons char 83%N (lit "TART")).
  change (lit "END") with (@cons char 69%N (lit "ND")).
  rewrite E1, E1'. rewrite !map_app, !concat_app. cbn [map concat].
  rewrite E2, E2'.
  set (f := fun x0 : str => split x0 (@cons char 69%N (lit "ND"))).
  exists (concat (map f us) ++ us2), (p2 ++ q2), (p2 ++ x ++ [LF] ++ q2),
         (vs2 ++ concat (map f vs)).
  split; [now rewrite <- !app_assoc|].
  split; [now rewrite <- !app_assoc|].
  now apply insert_before.
Qed.

(** The whole formatter ignores a line with [+] inserted at the start of a
    line of the log, as long as the line contains neither [START] nor [END],
    the tokens at which [read_file] cuts. *)
Lemma formatter_ignores_plus_lines (a b x : str) :
  line_start a b = true ->
  line x = true ->
  contains (lit "+") x = true ->
  contains (lit "START") x = false ->
  contains (lit "END") x = false ->
  exists printed printed' markdown,
    parser (read_file (a ++ b)) = inr (printed, markdown)
    /\ parser (read_file (a ++ x ++ [LF] ++ b)) = inr (printed', markdown).
Proof.
  intros Hstart Hx Hplus HS HE.
  destruct (read_file_insert a b x Hstart HS HE)
    as (before & chunk & chunk' & behind & E & E' & Hins).
  rewrite E, E', !parser_rows.
  eexists. eexists. eexists. split; [reflexivity|].
  do 3 f_equal. rewrite !map_app. simpl. do 2 f_equal.
  unfold row_of. now rewrite (outputs_of_insert x chunk chunk' Hins Hx Hplus).
Qed.

(** A line that contains one of the tokens is cut by [read_file] like any
    other text: here the chunk of the record falls into two. *)
Example token_line_cuts_the_chunk :
  let log := lit "START" ++ [LF] ++ iam_lines ++ lit "END" in
  let log' := lit "START" ++ [LF] ++ lit "iam" ++ [LF] ++ lit "+END" ++ [LF] ++
              lit "201.92 seconds" ++ [LF] ++ lit "217.43 seconds" ++ [LF] ++
              lit "215.10 seconds" ++ [LF] ++ lit "187.71 seconds" ++ [LF] ++
              lit "END" in
  map (fun i => length (outputs_of i)) (read_file log) = [0; 6; 0]
  /\ map (fun i => length (outputs_of i)) (read_file log') = [0; 2; 5; 0].
Proof.
  split; vm_compute; reflexivity.
Qed.

(** *** The properties at work *)

Lemma parser_header_prefix_witness :
  Forall (fun i => length (outputs_of i) <> 6) (read_file scenario_with_header)
  /\ exists rows : str,
       parser (read_file scenario_with_header) =
         inr (read_file scenario_with_header, markdown_init ++ rows)
       /\ rows = [].
Proof.
  assert (H : Forall (fun i => length (outputs_of i) <> 6)
                     (read_file scenario_with_header))
    by (repeat constructor; vm_compute; discriminate).
  split; [exact H|].
  destruct (parser_header_prefix (read_file scenario_with_header)) as (rows & E & Hnone).
  exists rows. split; [exact E|exact (Hnone H)].
Defined.

Lemma parser_rows_on_one_line_witness :
  qualifies ([LF] ++ iam_lines) = true
  /\ parser [[LF] ++ iam_lines; [LF] ++ iam_lines] =
       inr ([[LF] ++ iam_lines; [LF] ++ iam_lines],
            markdown_init ++ row_of ([LF] ++ iam_lines) ++ row_of ([LF] ++ iam_lines)).
Proof.
  split; [reflexivity|].
  destruct (parser_rows_on_one_line []) as (_ & _ & H).
  destruct (H ([LF] ++ iam_lines) ([LF] ++ iam_lines) eq_refl eq_refl) as [E _].
  exact E.
Defined.

Lemma parser_ignores_plus_lines_witness :
  line rule = true
  /\ contains (lit "+") rule = true
  /\ insert_line rule ([LF] ++ iam_lines) ([LF] ++ rule ++ [LF] ++ iam_lines)
  /\ exists markdown : str,
       parser ([[]] ++ ([LF] ++ iam_lines) :: [[]]) =
         inr ([[]] ++ ([LF] ++ iam_lines) :: [[]], markdown)
       /\ parser ([[]] ++ ([LF] ++ rule ++ [LF] ++ iam_lines) :: [[]]) =
            inr ([[]] ++ ([LF] ++ rule ++ [LF] ++ iam_lines) :: [[]], markdown).
Proof.
  split; [reflexivity|]. split; [reflexivity|].
  split; [apply insert_before; reflexivity|].
  exact (parser_ignores_plus_lines [[]] [[]] ([LF] ++ iam_lines)
           ([LF] ++ rule ++ [LF] ++ iam_lines) rule eq_refl eq_refl
           (insert_before rule [LF] iam_lines eq_refl)).
Defined.

End FormatSpec.

(* ================================================================== *)
(** ** Further properties of diff_lib.py *)
(* ================================================================== *)

Module DiffLibExtra.
Import PyStr PyStrFacts DiffLib DiffLibScenario DiffLibTrace.

Section Traces.

Variable World : Type.
Variable subprocess_run : str -> bool -> World -> World * (exn + Z).

(** *** Events of a computation *)

Lemma emits_ret (P : event -> Prop) {A} (a : A) : emits P (@ret World A a).
Proof.
  intros st. exists []. split; [now rewrite app_nil_r|constructor].
Qed.

Lemma emits_bind (P : event -> Prop) {A B} (c : M World A) (k : A -> M World B) :
  emits P c -> (forall a, emits P (k a)) -> emits P (bind c k).
Proof.
  intros Hc Hk st. unfold bind. destruct (Hc st) as (new & E & Hnew).
  destruct (c st) as [st1 [e|a]]; simpl in E.
  - now exists new.
  - destruct (Hk a st1) as (new' & E' & Hnew').
    exists (new ++ new'). split.
    + now rewrite E', E, app_assoc.
    + now apply Forall_app.
Qed.

Lemma emits_spawn (P : event -> Prop) (command : str) (shell : bool) :
  (forall rc, P (Exec command shell rc)) ->
  emits P (spawn subprocess_run command shell).
Proof.
  intros H st. unfold spawn.
  destruct (subprocess_run command shell (world st)) as [w [e|rc]]; simpl.
  - exists []. split; [now rewrite app_nil_r|constructor].
  - exists [Exec command shell rc]. split; [reflexivity|]. now repeat constructor.
Qed.

Lemma emits_run (P : event -> Prop) (command : str) (shell check : bool) :
  (forall rc, P (Exec command shell rc)) ->
  emits P (run subprocess_run command shell check).
Proof.
  intros H. unfold run. apply emits_bind; [now apply emits_spawn|].
  intros rc. destruct (check && negb (Z.eqb rc 0)).
  - intros st. exists []. split; [now rewrite app_nil_r|constructor].
  - apply emits_ret.
Qed.

Lemma emits_eprint (P : event -> Prop) (line : str) :
  P (Eprint line) -> emits P (@eprint World line).
Proof.
  intros H st. exists [Eprint line]. split; [reflexivity|]. now repeat constructor.
Qed.

(** *** What [generate_and_commit_generated_code] moves *)

(** Whatever the targets and whatever the outside world does, the only [mv]
    commands the function runs are the one of the SDK, and only if [aws:sdk]
    is a target, and those of the smithyprojections of [codegen-client] and
    [codegen-server], and only if a target has exactly that name.  The
    projections of [codegen-client-test] and [codegen-server-test] and the
    python server example are never moved. *)
Theorem generate_moves (revision_sha : str) (targets : option (list str)) :
  emits
    (fun e =>
       match e with
       | Exec command _ _ =>
           startswith command (lit "mv ") = false
           \/ (command = lit "mv aws/sdk/build/aws-sdk tmp-codegen-diff/"
            /\ mem (lit "aws:sdk") (effective_targets targets) = true)
           \/ (command =
                 lit "mv codegen-client/build/smithyprojections/codegen-client tmp-codegen-diff/"
               /\ mem (lit "codegen-client") (effective_targets targets) = true)
           \/ (command =
                 lit "mv codegen-server/build/smithyprojections/codegen-server tmp-codegen-diff/"
               /\ mem (lit "codegen-server") (effective_targets targets) = true)
       | Eprint _ => True
       end)
    (generate_and_commit_generated_code subprocess_run revision_sha targets).
Proof.
  unfold generate_and_commit_generated_code. cbv zeta.
  fold (effective_targets targets). generalize (effective_targets targets) as ts.
  intros ts. cbn [for_each].
  repeat (apply emits_bind; [|intros _]);
    repeat match goal with
           | |- emits _ (if ?b then _ else _) => destruct b eqn:?
           | |- emits _ (ret _) => apply emits_ret
           | |- emits _ (bind _ _) => apply emits_bind; [|intros _]
           end;
    try (apply emits_run; intros rc; first [left; reflexivity|right]).
  all: first
         [ left; split; [reflexivity|first [reflexivity|assumption]]
         | right; left; split; [reflexivity|first [reflexivity|assumption]]
         | right; right; split; [reflexivity|first [reflexivity|assumption]]
         | exfalso;
           match goal with
           | H : str_eqb _ _ = true |- _ => vm_compute in H; discriminate H
           end ].
Qed.

(** *** What a normal return of [generate_and_commit_generated_code] means *)

Lemma run_returns (command : str) (shell check : bool) st st' (a : unit) :
  run subprocess_run command shell check st = (st', inr a) ->
  exists w rc,
    subprocess_run command shell (world st) = (w, inr rc)
    /\ st' = mkState w (log st ++ [Exec command shell rc])
    /\ (check = true -> rc = 0%Z).
Proof.
  unfold run, bind, spawn.
  destruct (subprocess_run command shell (world st)) as [w [e|rc]]; [discriminate|].
  destruct check; simpl.
  - destruct (Z.eqb_spec rc 0) as [->|Hne]; simpl; intros H; inversion H; subst.
    now exists w, 0%Z.
  - intros H. inversion H; subst. exists w, rc. now repeat split.
Qed.

Lemma returns_after_ret (P : event -> Prop) {A} (a : A) :
  returns_after P (@ret World A a).
Proof.
  intros st st' a' H. inversion H; subst. exists [].
  split; [now rewrite app_nil_r|constructor].
Qed.

Lemma returns_after_bind (P : event -> Prop) {A B}
  (c : M World A) (k : A -> M World B) :
  returns_after P c -> (forall a, returns_after P (k a)) ->
  returns_after P (bind c k).
Proof.
  intros Hc Hk st st' b H. unfold bind in H.
  destruct (c st) as [st1 [e|a]] eqn:E; [discriminate|].
  destruct (Hc _ _ _ E) as (ev1 & E1 & F1).
  destruct (Hk a _ _ _ H) as (ev2 & E2 & F2).
  exists (ev1 ++ ev2). split; [now rewrite E2, E1, app_assoc|now apply Forall_app].
Qed.

Lemma returns_after_run (P : event -> Prop) (command : str) (shell check : bool) :
  (forall rc, (check = true -> rc = 0%Z) -> P (Exec command shell rc)) ->
  returns_after P (run subprocess_run command shell check).
Proof.
  intros HP st st' a H.
  destruct (run_returns _ _ _ _ _ _ H) as (w & rc & _ & -> & Hrc).
  exists [Exec command shell rc]. split; [reflexivity|].
  repeat constructor. now apply HP.
Qed.

Lemma returns_with_bind (P Q : event -> Prop) {A B}
  (c : M World A) (k : A -> M World B) :
  returns_after P c -> (forall a, returns_with P Q (k a)) ->
  returns_with P Q (bind c k).
Proof.
  intros Hc Hk st st' b H. unfold bind in H.
  destruct (c st) as [st1 [e|a]] eqn:E; [discriminate|].
  destruct (Hc _ _ _ E) as (ev1 & E1 & F1).
  destruct (Hk a _ _ _ H) as (ev2 & e & E2 & F2 & Qe).
  exists (ev1 ++ ev2), e. split; [|split; [now apply Forall_app|exact Qe]].
  now rewrite E2, E1, <- !app_assoc.
Qed.

Lemma returns_with_run (P Q : event -> Prop) (command : str) (shell : bool) :
  Q (Exec command shell 0%Z) ->
  returns_with P Q (run subprocess_run command shell true).
Proof.
  intros HQ st st' a H.
  destruct (run_returns _ _ _ _ _ _ H) as (w & rc & _ & -> & Hrc).
  rewrite (Hrc eq_refl). exists [], (Exec command shell 0%Z).
  split; [reflexivity|]. split; [constructor|exact HQ].
Qed.

(** Whatever the targets, a normal return of the function means that the
    commit was made: the last command run is the [git commit] with the
    revision in its message and [--allow-empty], it exited with status 0,
    and so did every command before it, except possibly [make build] of the
    python examples, the one command whose failure is tolerated. *)
Theorem generate_returns (revision_sha : str) (targets : option (list str)) :
  returns_with
    (fun e =>
       exists command shell rc,
         e = Exec command shell rc
         /\ (rc = 0%Z
             \/ command =
                  lit "cd rust-runtime/aws-smithy-http-server-python/examples && make build"))
    (fun e =>
       e = Exec
             (lit "git -c 'user.name=GitHub Action (generated code preview)' -c 'user.name=GitHub Action (generated code preview)' -c 'user.email=generated-code-action@github.com' commit --no-verify -m 'Generated code for " ++
              revision_sha ++ lit "' --allow-empty")
             false 0%Z)
    (generate_and_commit_generated_code subprocess_run revision_sha targets).
Proof.
  unfold generate_and_commit_generated_code. cbv zeta.
  fold (effective_targets targets). generalize (effective_targets targets) as ts.
  intros ts. cbn [for_each].
  repeat (apply returns_with_bind; [|intros _]);
    [..|apply returns_with_run; reflexivity];
    repeat match goal with
           | |- returns_after _ (if ?b then _ else _) => destruct b eqn:?
           | |- returns_after _ (ret _) => apply returns_after_ret
           | |- returns_after _ (bind _ _) => apply returns_after_bind; [|intros _]
           end;
    try (apply returns_after_run; intros rc Hrc; do 3 eexists;
         split; [reflexivity|]).
  all: first
         [ left; apply Hrc; reflexivity
         | right; reflexivity
         | exfalso;
           match goal with
           | H : str_eqb _ _ = true |- _ => vm_compute in H; discriminate H
           end ].
Qed.

(** *** A failing [make build] does not stop the function *)

Lemma succeeds_ret {A} (a : A) : succeeds (@ret World A a).
Proof.
  intros st. now exists st, a.
Qed.

Lemma succeeds_bind {A B} (c : M World A) (k : A -> M World B) :
  succeeds c -> (forall a, succeeds (k a)) -> succeeds (bind c k).
Proof.
  intros Hc Hk st. unfold bind. destruct (Hc st) as (st1 & a & E). rewrite E.
  apply Hk.
Qed.

Lemma succeeds_run (command : str) (shell check : bool) :
  (forall w, exists w' rc,
      subprocess_run command shell w = (w', inr rc) /\ (check = true -> rc = 0%Z)) ->
  succeeds (run subprocess_run command shell check).
Proof.
  intros H st. unfold run, bind, spawn.
  destruct (H (world st)) as (w' & rc & E & Hrc). rewrite E.
  destruct check; simpl.
  - rewrite (Hrc eq_refl). simpl. eexists. now exists tt.
  - eexists. now exists tt.
Qed.


(** *** What [make_diff] and [make_diffs] run *)

Lemma make_diff_emits (P : event -> Prop)
  (title path_to_diff base_commit_sha head_commit_sha suffix : str) (whitespace : bool) :
  (forall line, P (Eprint line)) ->
  (forall command shell rc,
      startswith command (lit "git diff ") = true
      \/ startswith command (lit "mkdir -p tmp-codegen-diff/") = true
      \/ startswith command (lit "difftags --output-dir tmp-codegen-diff/") = true ->
      P (Exec command shell rc)) ->
  emits P (make_diff subprocess_run title path_to_diff base_commit_sha
                     head_commit_sha suffix whitespace).
Proof.
  intros Hprint Hexec. unfold make_diff, get_cmd_status. cbv zeta.
  apply emits_bind.
  - apply emits_spawn. intros rc. apply Hexec. now left.
  - intros rc. destruct (Z.eqb rc 0).
    + apply emits_bind; [apply emits_eprint, Hprint|intros _; apply emits_ret].
    + repeat (apply emits_bind; [|intros _]);
        try apply emits_ret; try (apply emits_eprint, Hprint);
        apply emits_run; intros rc'; apply Hexec.
      * right. now left.
      * now left.
      * right. now right.
Qed.

(** Whatever the commit hashes and whatever the outside world does,
    [make_diffs] runs nothing but [git diff], [mkdir -p] below
    [tmp-codegen-diff] and [difftags] with its output below
    [tmp-codegen-diff]. *)
Theorem make_diffs_commands (base_commit_sha head_commit_sha : str) :
  emits
    (fun e =>
       match e with
       | Exec command _ _ =>
           startswith command (lit "git diff ") = true
           \/ startswith command (lit "mkdir -p tmp-codegen-diff/") = true
           \/ startswith command (lit "difftags --output-dir tmp-codegen-diff/") = true
       | Eprint _ => True
       end)
    (make_diffs subprocess_run base_commit_sha head_commit_sha).
Proof.
  unfold make_diffs.
  repeat (apply emits_bind; [apply make_diff_emits; [now intros|now intros]|intros ?]).
  apply emits_ret.
Qed.

(** A location returned by [make_diff] is that of a rendered diff: the quiet
    check found a difference, and the directory was created, the unified
    diff written and [difftags] run on it, each with exit status 0; the
    location is [index.html] in the directory handed to [difftags]. *)
Theorem make_diff_location
  (title path_to_diff base_commit_sha head_commit_sha suffix : str)
  (whitespace : bool) (st st' : state World) (loc : str) :
  let flag := if whitespace then [] else lit "-b" in
  let branches_and_path :=
    flag ++ lit " __tmp-localonly-base __tmp-localonly-head -- " ++ path_to_diff in
  let quiet := lit "git diff --quiet " ++ branches_and_path in
  let dir := base_commit_sha ++ lit "/" ++ head_commit_sha ++ lit "/" ++ suffix in
  let mkdir := lit "mkdir -p tmp-codegen-diff/" ++ dir in
  let unified := lit "git diff --output=codegen-diff.txt -U30 " ++ branches_and_path in
  let render :=
    lit "difftags --output-dir tmp-codegen-diff/" ++ dir ++
    lit " --title " ++ [DQUOTE] ++ title ++ [DQUOTE] ++
    lit " --subtitle " ++ [DQUOTE] ++ lit "rev. " ++ head_commit_sha ++ lit " " ++
    (if whitespace then [] else lit "(ignoring whitespace)") ++ [DQUOTE] ++
    lit " codegen-diff.txt" in
  make_diff subprocess_run title path_to_diff base_commit_sha head_commit_sha
            suffix whitespace st = (st', inr (Some loc)) ->
  exists status,
    status <> 0%Z
    /\ loc = dir ++ lit "/index.html"
    /\ log st' =
         log st ++
         [Exec quiet true status; Exec mkdir false 0; Exec unified false 0;
          Eprint (lit "Running diff cmd: " ++ render); Exec render false 0].
Proof.
  intros flag branches_and_path quiet dir mkdir unified render H.
  unfold make_diff, get_cmd_status in H. cbv zeta in H.
  apply DiffLibSpec.bind_inr in H. destruct H as (status & st1 & Hq & H).
  unfold spawn in Hq.
  destruct (subprocess_run _ true (world st)) as [w1 [e|rc]] eqn:Eq; [discriminate|].
  inversion Hq; subst status st1. clear Hq.
  destruct (Z.eqb_spec rc 0) as [->|Hne].
  - apply DiffLibSpec.bind_inr in H. destruct H as (_ & st2 & _ & H). discriminate.
  - apply DiffLibSpec.bind_inr in H. destruct H as ([] & st2 & H2 & H).
    apply DiffLibSpec.bind_inr in H. destruct H as ([] & st3 & H3 & H).
    apply DiffLibSpec.bind_inr in H. destruct H as ([] & st4 & H4 & H).
    apply DiffLibSpec.bind_inr in H. destruct H as ([] & st5 & H5 & H).
    destruct (run_returns _ _ _ _ _ _ H2) as (w2 & rc2 & _ & -> & R2).
    destruct (run_returns _ _ _ _ _ _ H3) as (w3 & rc3 & _ & -> & R3).
    inversion H4; subst st4. clear H4.
    destruct (run_returns _ _ _ _ _ _ H5) as (w5 & rc5 & _ & -> & R5).
    specialize (R2 eq_refl). specialize (R3 eq_refl). specialize (R5 eq_refl).
    subst rc2 rc3 rc5.
    inversion H; subst. exists rc. split; [exact Hne|]. split.
    + unfold dir. now norm_str.
    + simpl log. rewrite <- !app_assoc. simpl app. f_equal.
      unfold quiet, mkdir, unified, render, dir, branches_and_path, flag.
      repeat f_equal; try (now norm_str).
      all: destruct whitespace; now norm_str.
Qed.

(** When the quiet [git diff] finds no difference on any path, as for two
    identical revisions, [make_diffs] returns the message with the four "No
    codegen difference" bullets, whatever the commit hashes, and the eight
    quiet checks are the only commands it runs: nothing is created. *)
Theorem make_diffs_no_difference :
  (forall command w,
      startswith command (lit "git diff --quiet ") = true ->
      exists w', subprocess_run command true w = (w', inr 0%Z)) ->
  forall (base_commit_sha head_commit_sha : str) (st : state World),
  exists st' new,
    make_diffs subprocess_run base_commit_sha head_commit_sha st =
      (st',
       inr (lit "A new generated diff is ready to view.\n- No codegen difference in the AWS SDK\n- No codegen difference in the Client Test\n- No codegen difference in the Server Test\n- No codegen difference in the Server Test Python\n"))
    /\ log st' = log st ++ new
    /\ length (commands new) = 8
    /\ Forall (fun command => startswith command (lit "git diff --quiet ") = true)
              (commands new).
Proof.
  intros Hsame base_commit_sha head_commit_sha st.
  assert (Hstep : forall title path suffix whitespace (k : option str -> M World str) s,
            exists s' q,
              bind (make_diff subprocess_run title path base_commit_sha
                              head_commit_sha suffix whitespace) k s = k None s'
              /\ startswith q (lit "git diff --quiet ") = true
              /\ log s' =
                   log s ++
                   [Exec q true 0;
                    Eprint (lit "No diff output for " ++ base_commit_sha ++ lit ".." ++
                            head_commit_sha ++ lit " (" ++ suffix ++ lit ")")]).
  { intros title path suffix whitespace k s.
    unfold make_diff, get_cmd_status, bind, spawn. cbv zeta.
    match goal with
    | |- context [subprocess_run ?q true (world s)] =>
        destruct (Hsame q (world s) eq_refl) as (w' & E); rewrite E;
        eexists; exists q
    end.
    simpl. split; [reflexivity|]. split; [reflexivity|].
    simpl. now rewrite <- app_assoc. }
  assert (Hrun : exists s8 new,
            make_diffs subprocess_run base_commit_sha head_commit_sha st =
              ret (make_diffs_message None None None None None None None None) s8
            /\ log s8 = log st ++ new
            /\ length (commands new) = 8
            /\ Forall (fun command =>
                         startswith command (lit "git diff --quiet ") = true)
                      (commands new)).
  { unfold make_diffs.
    match goal with
    | |- context [bind (make_diff _ ?t ?p _ _ ?sfx ?ws) ?k st] =>
        destruct (Hstep t p sfx ws k st) as (s1 & q1 & E & Q1 & L1)
    end.
    cbv beta in E.
    do 7 (match type of E with
          | _ = bind (make_diff _ ?t ?p _ _ ?sfx ?ws) ?k ?s =>
              let s' := fresh "s" in
              let q := fresh "q" in
              let E' := fresh "E" in
              let Q := fresh "Q" in
              let L := fresh "L" in
              destruct (Hstep t p sfx ws k s) as (s' & q & E' & Q & L);
              rewrite E' in E; clear E'; cbv beta in E;
              rewrite L1 in L; clear L1; rename L into L1; clear s
          end).
    eexists. eexists. split; [exact E|].
    split; [rewrite L1, <- !app_assoc; reflexivity|].
    split; [reflexivity|].
    simpl. now repeat constructor. }
  destruct Hrun as (s8 & new & E & L & Hlen & Hq).
  exists s8, new. split; [exact E|]. now repeat split.
Qed.

Lemma bind_assoc {A B C} (m : M World A) (f : A -> M World B)
  (g : B -> M World C) st :
  bind (bind m f) g st = bind m (fun x => bind (f x) g) st.
Proof.
  unfold bind. destruct (m st) as [s [e|a]]; reflexivity.
Qed.


End Traces.

Lemma generate_returns_witness :
  exists st' events,
    generate_and_commit_generated_code build_fails (lit "0a1b") None start
      = (st', inr tt)
    /\ log st' =
         events ++
         [Exec
            (lit "git -c 'user.name=GitHub Action (generated code preview)' -c 'user.name=GitHub Action (generated code preview)' -c 'user.email=generated-code-action@github.com' commit --no-verify -m 'Generated code for 0a1b' --allow-empty")
            false 0%Z]
    /\ In (Exec (lit "cd rust-runtime/aws-smithy-http-server-python/examples && make build")
                true 2%Z) events.
Proof.
  destruct (generate_and_commit_generated_code build_fails (lit "0a1b") None start)
    as [st' [e|[]]] eqn:Hrun.
  - vm_compute in Hrun. discriminate.
  - destruct (generate_returns unit build_fails (lit "0a1b") None _ _ _ Hrun)
      as (events & e & E & _ & ->).
    exists st', events. split; [reflexivity|]. split; [exact E|].
    assert (Hin : In (Exec (lit "cd rust-runtime/aws-smithy-http-server-python/examples && make build")
                           true 2%Z) (log st')).
    { vm_compute in Hrun. inversion Hrun. simpl. tauto. }
    rewrite E in Hin. simpl in Hin. apply in_app_or in Hin.
    destruct Hin as [Hin|[Hin|[]]]; [exact Hin|discriminate Hin].
Defined.

Lemma str_eqb_true (a b : str) : str_eqb a b = true -> a = b.
Proof.
  revert b. induction a as [|x a IH]; intros [|y b] H; simpl in H;
    try discriminate; [reflexivity|].
  apply andb_prop in H. destruct H as [Hxy Hab].
  apply N.eqb_eq in Hxy. subst y. now rewrite (IH b Hab).
Qed.


Lemma make_diff_location_witness :
  exists st' status,
    make_diff branches_differ (lit "Client Test") (lit "tmp-codegen-diff/codegen-client-test")
              (lit "0a1b") (lit "2c3d") (lit "client-test") true start
      = (st', inr (Some (lit "0a1b/2c3d/client-test/index.html")))
    /\ status <> 0%Z
    /\ length (log st') = 5.
Proof.
  destruct (make_diff branches_differ (lit "Client Test")
              (lit "tmp-codegen-diff/codegen-client-test")
              (lit "0a1b") (lit "2c3d") (lit "client-test") true start)
    as [st' [e|[loc|]]] eqn:H; try (vm_compute in H; discriminate H).
  destruct (make_diff_location unit branches_differ _ _ _ _ _ _ _ _ _ H)
    as (status & Hne & Eloc & Elog).
  exists st', status. split; [|split; [exact Hne|now rewrite Elog]].
  now rewrite Eloc.
Defined.

Lemma make_diffs_no_difference_witness :
  exists st',
    make_diffs all_succeed (lit "0a1b") (lit "0a1b") start =
      (st',
       inr (lit "A new generated diff is ready to view.\n- No codegen difference in the AWS SDK\n- No codegen difference in the Client Test\n- No codegen difference in the Server Test\n- No codegen difference in the Server Test Python\n")).
Proof.
  assert (Hsame : forall command w,
             startswith command (lit "git diff --quiet ") = true ->
             exists w', all_succeed command true w = (w', inr 0%Z)).
  { intros command w _. now exists w. }
  destruct (make_diffs_no_difference unit all_succeed Hsame (lit "0a1b") (lit "0a1b") start)
    as (st' & new & E & _).
  now exists st'.
Defined.


End DiffLibExtra.

(* ================================================================== *)
(** ** Further properties of format.py *)
(* ================================================================== *)

Module FormatExtra.
Import PyStr PyStrFacts Format FormatScenario FormatSpec FormatLog.

(** *** Chunks compose *)

(** The rows of the chunks come in the order of the chunks, and what is
    handed to [parser] first has no influence on the rows of what follows:
    the markdown for [xs ++ ys] is the markdown for [xs] followed by the
    rows [parser] makes of [ys] alone. *)
Theorem parser_app (xs ys : list str) :
  exists markdown rows : str,
    parser xs = inr (xs, markdown)
    /\ parser ys = inr (ys, markdown_init ++ rows)
    /\ parser (xs ++ ys) = inr (xs ++ ys, markdown ++ rows).
Proof.
  exists (markdown_init ++ concat (map row_of xs)), (concat (map row_of ys)).
  rewrite !parser_rows. repeat split.
  now rewrite map_app, concat_app, <- app_assoc.
Qed.

(** *** What [read_file] cuts *)

Lemma startswith_app_l (a y p : str) :
  startswith a p = true -> startswith (a ++ y) p = true.
Proof.
  intros H. destruct (startswith_inv _ _ H) as [r ->].
  rewrite <- app_assoc. apply startswith_app.
Qed.

Lemma join_cons (sep p : str) (ps : list str) :
  ps <> [] -> join sep (p :: ps) = p ++ sep ++ join sep ps.
Proof.
  destruct ps; [congruence|reflexivity].
Qed.

Lemma join_cons_head (sep : str) (c : char) (ps : list str) :
  ps <> [] -> join sep (cons_head c ps) = c :: join sep ps.
Proof.
  destruct ps as [|p [|q ps]]; [congruence|reflexivity|reflexivity].
Qed.

(** Joining the pieces with the separator gives the text back. *)
Lemma join_split (c0 : char) (sep' s : str) :
  join (c0 :: sep') (split s (c0 :: sep')) = s.
Proof.
  set (sep := c0 :: sep').
  assert (G : forall n (s : str), length s <= n -> join sep (split s sep) = s).
  { clear s. induction n as [|n IH]; intros [|c s'] Hlen; simpl in Hlen;
      try lia; try reflexivity.
    destruct (startswith (c :: s') sep) eqn:Hs.
    - destruct (startswith_inv _ _ Hs) as [r Hr]. rewrite Hr.
      unfold sep. rewrite split_at_sep. fold sep.
      rewrite join_cons by apply split_nonempty.
      rewrite IH; [reflexivity|].
      apply (f_equal (@length _)) in Hr. rewrite length_app in Hr.
      unfold sep in Hr. simpl in Hr. unfold char in *. lia.
    - rewrite (split_no_sep _ _ _ Hs), join_cons_head by apply split_nonempty.
      rewrite IH by lia. reflexivity. }
  apply (G (length s)). lia.
Qed.


(** The first piece is the text up to the first occurrence. *)
Lemma split_first_prefix (s sep : str) :
  exists p ps r, split s sep = p :: ps /\ s = p ++ r.
Proof.
  induction s as [|c s IH].
  - now exists [], [], [].
  - destruct (startswith (c :: s) sep) eqn:Hs.
    + unfold split. simpl split_from. rewrite Hs.
      eexists [], _, (c :: s). now split.
    + destruct IH as (p & ps & r & E & ->).
      rewrite (split_no_sep _ _ _ Hs), E.
      now exists (c :: p), ps, r.
Qed.

Lemma contains_nil_false (sub : str) : sub <> [] -> contains sub [] = false.
Proof.
  destruct sub; [congruence|reflexivity].
Qed.

Lemma contains_cons_prefix (sub : str) (c : char) (p r : str) :
  startswith (c :: p ++ r) sub = false -> contains sub p = false ->
  contains sub (c :: p) = false.
Proof.
  intros Hs Hp. simpl. rewrite Hp, orb_false_r.
  destruct (startswith (c :: p) sub) eqn:E; [|reflexivity].
  apply (startswith_app_l _ r) in E. simpl in E. congruence.
Qed.

(** No piece contains the separator. *)
Lemma split_pieces_free (c0 : char) (sep' s : str) :
  Forall (fun p => contains (c0 :: sep') p = false) (split s (c0 :: sep')).
Proof.
  set (sep := c0 :: sep').
  assert (G : forall n (s : str), length s <= n ->
                Forall (fun p => contains sep p = false) (split s sep)).
  { clear s. induction n as [|n IH]; intros [|c s'] Hlen; simpl in Hlen;
      try lia; try (now repeat constructor).
    destruct (startswith (c :: s') sep) eqn:Hs.
    - destruct (startswith_inv _ _ Hs) as [r Hr]. rewrite Hr.
      unfold sep. rewrite split_at_sep. fold sep.
      constructor; [reflexivity|]. apply IH.
      apply (f_equal (@length _)) in Hr. rewrite length_app in Hr.
      unfold sep in Hr. simpl in Hr. unfold char in *. lia.
    - rewrite (split_no_sep _ _ _ Hs).
      specialize (IH s' ltac:(lia)).
      destruct (split_first_prefix s' sep) as (p & ps & r & E & Er).
      rewrite E in *. inversion IH; subst. simpl. constructor; [|assumption].
      now apply (contains_cons_prefix sep c p r). }
  apply (G (length s)). lia.
Qed.

(** A text without some pattern is cut into pieces without it. *)
Lemma split_pieces_keep_free (sub : str) (c0 : char) (sep' s : str) :
  contains sub s = false ->
  Forall (fun p => contains sub p = false) (split s (c0 :: sep')).
Proof.
  set (sep := c0 :: sep').
  assert (G : forall n (s : str), length s <= n -> contains sub s = false ->
                Forall (fun p => contains sub p = false) (split s sep)).
  { clear s. induction n as [|n IH]; intros [|c s'] Hlen Hfree; simpl in Hlen;
      try lia; try (now repeat constructor).
    assert (Hnil : contains sub [] = false).
    { destruct sub; [discriminate Hfree|reflexivity]. }
    destruct (startswith (c :: s') sep) eqn:Hs.
    - destruct (startswith_inv _ _ Hs) as [r Hr]. rewrite Hr in *.
      unfold sep. rewrite split_at_sep. fold sep.
      constructor; [exact Hnil|]. apply IH.
      + apply (f_equal (@length _)) in Hr. rewrite length_app in Hr.
        unfold sep in Hr. simpl in Hr. unfold char in *. lia.
      + destruct (contains sub r) eqn:Er; [|reflexivity].
        now rewrite (contains_app_r sub sep r Er) in Hfree.
    - rewrite (split_no_sep _ _ _ Hs).
      simpl in Hfree. apply orb_false_elim in Hfree. destruct Hfree as [Hc Hs'].
      specialize (IH s' ltac:(lia) Hs').
      destruct (split_first_prefix s' sep) as (p & ps & r & E & Er).
      rewrite E in *. inversion IH; subst. simpl. constructor; [|assumption].
      now apply (contains_cons_prefix sub c p r). }
  apply (G (length s)). lia.
Qed.

(** No chunk [read_file] hands to [parser] contains [START] or [END]: the
    tokens are consumed by the cutting. *)
Theorem read_file_chunks_free (f : str) :
  Forall (fun i => contains (lit "START") i = false /\ contains (lit "END") i = false)
         (read_file f).
Proof.
  unfold read_file.
  pose proof (split_pieces_free 83%N (lit "TART") f) as Hstart.
  change (@cons char 83%N (lit "TART")) with (lit "START") in Hstart.
  induction Hstart as [|p ps Hp _ IH]; [constructor|].
  simpl. apply Forall_app. split; [|exact IH].
  pose proof (split_pieces_free 69%N (lit "ND") p) as HE.
  pose proof (split_pieces_keep_free (lit "START") 69%N (lit "ND") p Hp) as HS.
  change (@cons char 69%N (lit "ND")) with (lit "END") in HE, HS.
  induction HE as [|q qs Hq _ IHq]; [constructor|].
  inversion HS; subst. constructor; [now split|now apply IHq].
Qed.

(** *** Line terminators *)

Lemma splitlines_line_break (x b : str) (t : char) :
  line x = true -> is_linebreak t = true ->
  N.eqb t CR && N.eqb (hd 0%N b) LF = false ->
  splitlines (x ++ t :: b) = x :: splitlines b.
Proof.
  intros Hx Ht Hb. induction x as [|c x IH].
  - apply splitlines_break; assumption.
  - simpl in Hx. apply andb_prop in Hx. destruct Hx as [Hc Hx].
    apply negb_true_iff in Hc.
    change ((c :: x) ++ t :: b) with (c :: (x ++ t :: b)).
    now rewrite (splitlines_char _ _ Hc), (IH Hx).
Qed.

Lemma splitlines_line_crlf (x b : str) :
  line x = true -> splitlines (x ++ CR :: LF :: b) = x :: splitlines b.
Proof.
  intros Hx. induction x as [|c x IH].
  - apply splitlines_crlf.
  - simpl in Hx. apply andb_prop in Hx. destruct Hx as [Hc Hx].
    apply negb_true_iff in Hc.
    change ((c :: x) ++ CR :: LF :: b) with (c :: (x ++ CR :: LF :: b)).
    now rewrite (splitlines_char _ _ Hc), (IH Hx).
Qed.

Lemma unlines_head (term : str) (ls : list str) :
  Forall (fun l => line l = true) ls ->
  term <> [] -> hd 0%N term <> LF -> hd 0%N (unlines term ls) <> LF.
Proof.
  intros Hls Hne Hterm. destruct Hls as [|l ls Hl _]; [discriminate|].
  unfold unlines. simpl. destruct l as [|c l]; simpl.
  - destruct term; [congruence|]. exact Hterm.
  - simpl in Hl. apply andb_prop in Hl. destruct Hl as [Hc _].
    intros E. unfold LF in E. subst c. discriminate.
Qed.

Lemma splitlines_unlines (term : str) (ls : list str) :
  In term terminators -> Forall (fun l => line l = true) ls ->
  splitlines (unlines term ls) = ls.
Proof.
  intros Hterm Hls. induction Hls as [|l ls Hl Hls IH]; [reflexivity|].
  unfold unlines in *. simpl concat. rewrite <- app_assoc.
  simpl in Hterm.
  repeat destruct Hterm as [<-|Hterm]; try contradiction;
    try (change ([?t] ++ ?b) with (t :: b));
    try (rewrite splitlines_line_break by (assumption || reflexivity);
         now rewrite IH).
  - (* CR alone: the next line does not begin with LF *)
    rewrite splitlines_line_break; [now rewrite IH|assumption|reflexivity|].
    simpl. apply N.eqb_neq.
    apply (unlines_head [CR] ls Hls); discriminate.
  - (* CR LF *)
    change ([CR; LF] ++ ?b) with (CR :: LF :: b).
    rewrite splitlines_line_crlf by assumption. now rewrite IH.
Qed.

(** Which of the line terminators a chunk uses makes no difference: lines
    ended by CR LF, by CR or by any other terminator give the lines
    themselves, and so [parser] returns the same markdown as for the lines
    ended by LF. *)
Theorem parser_any_terminator
  (before behind : list str) (term : str) (ls : list str) :
  In term terminators ->
  Forall (fun l => line l = true) ls ->
  splitlines (unlines term ls) = ls
  /\ exists markdown : str,
       parser (before ++ unlines [LF] ls :: behind)
         = inr (before ++ unlines [LF] ls :: behind, markdown)
       /\ parser (before ++ unlines term ls :: behind)
            = inr (before ++ unlines term ls :: behind, markdown).
Proof.
  intros Hterm Hls. split; [now apply splitlines_unlines|].
  rewrite !parser_rows. eexists. split; [reflexivity|].
  do 3 f_equal. rewrite !map_app. simpl. do 2 f_equal.
  unfold row_of, outputs_of.
  rewrite (splitlines_unlines term ls Hterm Hls).
  rewrite (splitlines_unlines [LF] ls) by (simpl; tauto || assumption).
  reflexivity.
Qed.

(** *** Logs of well-formed records *)

Import DiffLibScenario.

Lemma plain_not_linebreak (c : char) : plain c = true -> is_linebreak c = false.
Proof.
  intros H. destruct (is_linebreak c) eqn:E; [|reflexivity].
  unfold is_linebreak in E. apply existsb_exists in E.
  destruct E as (x & Hin & Hx). apply N.eqb_eq in Hx. subst x.
  unfold linebreaks in Hin. simpl in Hin.
  repeat destruct Hin as [<-|Hin]; try (vm_compute in H; discriminate H).
  contradiction.
Qed.

Lemma plain_line (t : str) : forallb plain t = true -> line t = true.
Proof.
  induction t as [|c t IH]; [reflexivity|]. simpl. intros H.
  apply andb_prop in H. destruct H as [Hc Ht].
  now rewrite (plain_not_linebreak c Hc), (IH Ht).
Qed.

Lemma plain_lacks (k : char) (t : str) :
  plain k = false -> forallb plain t = true -> has_char k t = false.
Proof.
  intros Hk. induction t as [|c t IH]; [reflexivity|]. simpl. intros H.
  apply andb_prop in H. destruct H as [Hc Ht].
  unfold DiffLibScenario.has_char in *. simpl. rewrite (IH Ht), orb_false_r.
  apply N.eqb_neq. intros ->. congruence.
Qed.

Lemma contains_lacks (c0 : char) (sub' t : str) :
  has_char c0 t = false -> contains (c0 :: sub') t = false.
Proof.
  unfold DiffLibScenario.has_char.
  induction t as [|c t IH]; [reflexivity|]. simpl. intros H.
  apply orb_false_elim in H. destruct H as [Hc Ht].
  now rewrite Hc, (IH Ht).
Qed.

Lemma split_lacks (c0 : char) (sep' u : str) :
  has_char c0 u = false -> split u (c0 :: sep') = [u].
Proof.
  intros H. apply split_none. now apply contains_lacks.
Qed.

Lemma replace_from_skip (u v old new : str) :
  replace_from (length u) (u ++ v) old new = replace_from 0 v old new.
Proof.
  induction u as [|c u IH]; simpl; [reflexivity|exact IH].
Qed.

Lemma replace_at (c0 : char) (old' v new : str) :
  replace ((c0 :: old') ++ v) (c0 :: old') new = new ++ replace v (c0 :: old') new.
Proof.
  unfold replace.
  change (replace_from 0 ((c0 :: old') ++ v) (c0 :: old') new)
    with (if startswith ((c0 :: old') ++ v) (c0 :: old')
          then new ++ replace_from (length (c0 :: old') - 1) (old' ++ v) (c0 :: old') new
          else c0 :: replace_from 0 (old' ++ v) (c0 :: old') new).
  rewrite startswith_app. f_equal.
  replace (length (c0 :: old') - 1) with (length old') by (simpl; lia).
  apply replace_from_skip.
Qed.

Lemma replace_other (c : char) (s old new : str) :
  startswith (c :: s) old = false ->
  replace (c :: s) old new = c :: replace s old new.
Proof.
  intros H. unfold replace.
  change (replace_from 0 (c :: s) old new)
    with (if startswith (c :: s) old
          then new ++ replace_from (length old - 1) s old new
          else c :: replace_from 0 s old new).
  now rewrite H.
Qed.

(** A text without the first character of the pattern is left alone, and a
    pattern right behind such a text is found. *)
Lemma replace_lacks (c0 : char) (old' t new : str) :
  has_char c0 t = false -> replace t (c0 :: old') new = t.
Proof.
  unfold DiffLibScenario.has_char.
  induction t as [|c t IH]; [reflexivity|]. simpl. intros H.
  apply orb_false_elim in H. destruct H as [Hc Ht].
  rewrite replace_other by (simpl; now rewrite Hc).
  now rewrite (IH Ht).
Qed.

Lemma replace_suffix (c0 : char) (old' t new : str) :
  has_char c0 t = false ->
  replace (t ++ c0 :: old') (c0 :: old') new = t ++ new.
Proof.
  unfold DiffLibScenario.has_char.
  induction t as [|c t IH]; simpl; intros H.
  - rewrite <- (app_nil_r (c0 :: old')) at 1. rewrite replace_at.
    unfold replace. simpl. now rewrite app_nil_r.
  - apply orb_false_elim in H. destruct H as [Hc Ht].
    rewrite replace_other by (simpl; now rewrite Hc).
    now rewrite (IH Ht).
Qed.

(** The surviving lines of a record: the empty rest of the [START] line,
    the name and the four timings. *)
Lemma outputs_of_body (r : record) :
  well_formed r = true ->
  outputs_of (body_of r) =
    [[]; sdk_name r; dev r; release r; dev_all r; release_all r].
Proof.
  unfold well_formed. intros H.
  repeat (apply andb_prop in H; destruct H as [H ?]).
  assert (Hsec : forall t, forallb plain t = true -> line (t ++ lit " seconds") = true).
  { intros t Ht. unfold line. rewrite forallb_app.
    change (forallb (fun c => negb (is_linebreak c)) t) with (line t).
    now rewrite (plain_line t Ht). }
  assert (Hplus : forall t, forallb plain t = true ->
                    contains (lit "+") (t ++ lit " seconds") = false).
  { intros t Ht. apply (contains_lacks 43%N []).
    rewrite DiffLibSpec.has_char_app, (plain_lacks 43%N t eq_refl Ht). reflexivity. }
  assert (Hrep : forall t, forallb plain t = true ->
                   replace (t ++ lit " seconds") (lit " seconds") [] = t).
  { intros t Ht.
    change (lit " seconds") with (@cons char 32%N (lit "seconds")).
    rewrite replace_suffix by now apply (plain_lacks 32%N).
    apply app_nil_r. }
  unfold outputs_of, body_of.
  change ([LF] ++ ?b) with (LF :: b).
  rewrite (splitlines_break LF _ eq_refl eq_refl).
  repeat (change ([LF] ++ ?b) with (LF :: b)).
  rewrite (splitlines_first_line (sdk_name r)) by now apply plain_line.
  rewrite (app_assoc (dev r)), (app_assoc (release r)), (app_assoc (dev_all r)),
    (app_assoc (release_all r)).
  rewrite !splitlines_first_line by now apply Hsec.
  cbn [splitlines filter].
  rewrite !Hplus by assumption.
  change (lit "+") with (@cons char 43%N (@nil char)).
  rewrite (contains_lacks 43%N [] (sdk_name r))
    by now apply (plain_lacks 43%N).
  cbn [negb map contains startswith orb].
  rewrite !Hrep by assumption.
  change (lit " seconds") with (@cons char 32%N (lit "seconds")).
  rewrite (replace_lacks 32%N (lit "seconds") (sdk_name r) [])
    by now apply (plain_lacks 32%N).
  reflexivity.
Qed.

Lemma row_of_body (r : record) : well_formed r = true -> row_of (body_of r) = table_row r.
Proof.
  intros H. unfold row_of. now rewrite (outputs_of_body r H).
Qed.

Lemma body_lacks (k : char) (r : record) :
  plain k = false -> has_char k ([LF] ++ lit " seconds") = false ->
  well_formed r = true -> has_char k (body_of r) = false.
Proof.
  unfold well_formed. intros Hk Hlit H.
  repeat (apply andb_prop in H; destruct H as [H ?]).
  assert (Hk1 : N.eqb k LF = false).
  { unfold DiffLibScenario.has_char in Hlit. simpl in Hlit.
    now apply orb_false_elim in Hlit. }
  unfold body_of.
  repeat rewrite DiffLibSpec.has_char_app.
  repeat match goal with
         | Hf : forallb plain ?t = true |- _ =>
             rewrite (plain_lacks k t Hk Hf); clear Hf
         end.
  change (has_char k [LF]) with (N.eqb k LF || false). rewrite Hk1.
  assert (Hk2 : has_char k (lit " seconds") = false).
  { rewrite DiffLibSpec.has_char_app in Hlit.
    now apply orb_false_elim in Hlit. }
  rewrite Hk2. reflexivity.
Qed.

(** The blocks of such a log: nothing in front of the first [START], then a
    block for every record. *)
Lemma split_log (u : str) (rs : list record) :
  has_char 83%N u = false ->
  Forall (fun r => well_formed r = true) rs ->
  split (u ++ log_of rs) (lit "START") =
    u :: map (fun r => body_of r ++ lit "END" ++ [LF]) rs.
Proof.
  intros Hu Hrs. revert u Hu. induction Hrs as [|r rs Hr _ IH]; intros u Hu.
  - unfold log_of. simpl. rewrite app_nil_r. now apply (split_lacks 83%N (lit "TART")).
  - unfold log_of in *.
    change (concat (map section_of (r :: rs)))
      with (section_of r ++ concat (map section_of rs)).
    unfold section_of at 1.
    rewrite <- (app_assoc (lit "START")).
    change (lit "START") with (@cons char 83%N (lit "TART")).
    rewrite (split_piece u _ 83%N (lit "TART") Hu).
    f_equal.
    change (@cons char 83%N (lit "TART")) with (lit "START").
    apply IH.
    rewrite DiffLibSpec.has_char_app, (body_lacks 83%N r eq_refl eq_refl Hr).
    reflexivity.
Qed.

Lemma read_file_log (rs : list record) :
  Forall (fun r => well_formed r = true) rs ->
  read_file (log_of rs) = [] :: flat_map (fun r => [body_of r; [LF]]) rs.
Proof.
  intros Hrs. unfold read_file.
  change (log_of rs) with ([] ++ log_of rs).
  rewrite (split_log [] rs eq_refl Hrs).
  assert (E : concat (map (fun x => split x (lit "END"))
                          (map (fun r => body_of r ++ lit "END" ++ [LF]) rs)) =
              flat_map (fun r => [body_of r; [LF]]) rs).
  { induction Hrs as [|r rs Hr _ IH]; [reflexivity|].
    cbn [map concat flat_map]. rewrite IH.
    change (lit "END") with (@cons char 69%N (lit "ND")).
    rewrite (split_piece (body_of r) [LF] 69%N (lit "ND"))
      by apply (body_lacks 69%N r eq_refl eq_refl Hr).
    reflexivity. }
  cbn [map concat]. rewrite E. reflexivity.
Qed.

(** For a log of records whose names and timings are made of lower-case
    letters, digits, dots, hyphens and underscores, the formatter returns
    the header block followed by one row per record, in the order of the
    log, with the name and the four timings of the record. *)
Theorem formatter_well_formed_log (rs : list record) :
  Forall (fun r => well_formed r = true) rs ->
  parser (read_file (log_of rs)) =
    inr (read_file (log_of rs), markdown_init ++ concat (map table_row rs)).
Proof.
  intros Hrs. rewrite parser_rows. do 3 f_equal.
  rewrite (read_file_log rs Hrs). simpl.
  induction Hrs as [|r rs Hr _ IH]; [reflexivity|].
  simpl. now rewrite (row_of_body r Hr), IH.
Qed.

Lemma formatter_well_formed_log_witness :
  Forall (fun r => well_formed r = true) [iam_run; s3_run]
  /\ parser (read_file (log_of [iam_run; s3_run])) =
       inr (read_file (log_of [iam_run; s3_run]),
            markdown_init ++
            lit "|iam|201.92|217.43|215.10|187.71|" ++
            lit "|s3|301.05|322.80|310.11|290.47|").
Proof.
  assert (H : Forall (fun r => well_formed r = true) [iam_run; s3_run])
    by now repeat constructor.
  split; [exact H|].
  exact (formatter_well_formed_log [iam_run; s3_run] H).
Defined.

Lemma parser_any_terminator_witness :
  In [CR; LF] terminators
  /\ Forall (fun l => line l = true) [[]; lit "iam"; lit "1 seconds"]
  /\ splitlines (unlines [CR; LF] [[]; lit "iam"; lit "1 seconds"]) =
       [[]; lit "iam"; lit "1 seconds"].
Proof.
  assert (Ht : In [CR; LF] terminators) by (simpl; tauto).
  assert (Hl : Forall (fun l => line l = true) [[]; lit "iam"; lit "1 seconds"])
    by now repeat constructor.
  split; [exact Ht|]. split; [exact Hl|].
  exact (proj1 (parser_any_terminator [] [] [CR; LF] _ Ht Hl)).
Defined.

(** *** The script *)

Import FormatScript.

Lemma rstrip_keep (y : str) (c : char) :
  isspace c = false -> rstrip (y ++ [c]) = y ++ [c].
Proof.
  intros H. unfold rstrip. rewrite rev_unit. simpl. rewrite H.
  simpl. now rewrite rev_involutive.
Qed.

Lemma row_of_shape (i : str) : row_of i = [] \/ exists r, row_of i = r ++ lit "|".
Proof.
  unfold row_of.
  destruct (outputs_of i) as [|o0 [|o1 [|o2 [|o3 [|o4 [|o5 [|o6 rest]]]]]]];
    try (now left).
  right. eexists. rewrite !app_assoc. reflexivity.
Qed.

Lemma rows_shape (iter : list str) :
  concat (map row_of iter) = [] \/ exists r, concat (map row_of iter) = r ++ lit "|".
Proof.
  induction iter as [|i rest IH]; [now left|]. simpl.
  destruct IH as [->|[r ->]].
  - rewrite app_nil_r. apply row_of_shape.
  - right. exists (row_of i ++ r). now rewrite app_assoc.
Qed.

Lemma str_eqb_refl (a : str) : str_eqb a a = true.
Proof.
  induction a as [|x a IH]; [reflexivity|]. simpl. now rewrite N.eqb_refl, IH.
Qed.

(** The stripped markdown is the expected text exactly when the rows are the
    one [iam] row. *)
Lemma strip_markdown (iter : list str) :
  strip (markdown_init ++ concat (map row_of iter)) =
    strip (markdown_init ++ lit "|iam|201.92|217.43|215.10|187.71|" ++ [LF] ++ lit "    ")
  <-> concat (map row_of iter) = lit "|iam|201.92|217.43|215.10|187.71|".
Proof.
  set (th := lit "| sdk name | dev | release | dev all features | release all features |" ++
             [LF] ++
             lit "    | -------- | --- | ------- | ---------------- | -------------------- |" ++
             [LF] ++ lit "    ").
  assert (L : forall r : str,
             strip (markdown_init ++ r ++ [124%N]) = th ++ r ++ [124%N]).
  { intros r. unfold strip. rewrite (app_assoc markdown_init r).
    rewrite rstrip_keep by reflexivity. rewrite <- app_assoc. reflexivity. }
  assert (R : strip (markdown_init ++ lit "|iam|201.92|217.43|215.10|187.71|" ++
                     [LF] ++ lit "    ") =
              th ++ lit "|iam|201.92|217.43|215.10|187.71|")
    by (vm_compute; reflexivity).
  rewrite R. split.
  - destruct (rows_shape iter) as [->|[r ->]]; intros H.
    + vm_compute in H. discriminate H.
    + change (r ++ lit "|") with (r ++ [124%N]) in *.
      rewrite L in H. now apply app_inv_head in H.
  - intros ->. symmetry. exact R.
Qed.


Lemma formatter_ignores_plus_lines_witness :
  line_start (lit "START" ++ [LF]) (iam_lines ++ lit "END") = true
  /\ line rule = true
  /\ contains (lit "+") rule = true
  /\ contains (lit "START") rule = false
  /\ contains (lit "END") rule = false
  /\ exists printed printed' markdown,
       parser (read_file ((lit "START" ++ [LF]) ++ iam_lines ++ lit "END"))
         = inr (printed, markdown)
       /\ parser (read_file ((lit "START" ++ [LF]) ++ rule ++ [LF] ++
                             iam_lines ++ lit "END"))
            = inr (printed', markdown).
Proof.
  repeat (split; [reflexivity|]).
  exact (formatter_ignores_plus_lines (lit "START" ++ [LF]) (iam_lines ++ lit "END")
           rule eq_refl eq_refl eq_refl eq_refl eq_refl).
Defined.

End FormatExtra.
